(** * typed-zod-fetcher: a shallow embedding of [src/index.ts]

    The module wraps the platform's [fetch] with status-code
    classification, schema validation of the decoded body, a name-keyed
    error dispatch and a scoped [AbortController].  The embedding keeps the
    effects of the source visible: every observable action (creating the
    controller, the network call, decoding, validating, constructing an
    error, logging, aborting) is an event of the run, and exceptions are
    completions of a small effect monad with [try]/[catch]/[finally]. *)

From Stdlib Require Import Ascii DecimalString DecimalN.
From stdpp Require Import gmap strings list fin_maps.

Open Scope string_scope.
Set Warnings "-register-all".

(** ** Values *)

(** Decoded JSON and thrown non-[Error] values.  Numbers are carried as
    integers; no definition below computes with them. *)
Inductive JSValue : Type :=
| JNull
| JBool (b : bool)
| JNumber (n : Z)
| JString (s : string)
| JArray (items : list JSValue)
| JObject (fields : list (string * JSValue)).

(** An [Error] object: the three properties the module reads or writes. *)
Record Error : Type := mkError {
  name : string;
  message : string;
  cause : option JSValue
}.

(** Whatever a [throw] carries.  [error instanceof Error] holds exactly of
    [ThrownError]. *)
Inductive Thrown : Type :=
| ThrownError (e : Error)
| ThrownOther (v : JSValue).

Definition instanceofError (t : Thrown) : bool :=
  match t with
  | ThrownError _ => true
  | ThrownOther _ => false
  end.

(** [enum HTTPMethods] *)
Inductive HTTPMethods : Type := GET | POST | PUT | PATCH | DELETE.

(** The platform's [RequestCache] union. *)
Inductive RequestCache : Type :=
| cache_default | cache_force_cache | cache_no_cache
| cache_no_store | cache_only_if_cached | cache_reload.

(** The body of a request: the text [JSON.stringify] produces for a value,
    kept symbolic. *)
Inductive BodyInit : Type :=
| JSON_stringify (v : JSValue).

(** An [AbortController] is identified by its allocation number; its
    [signal] carries the same identity. *)
Definition AbortController : Type := nat.

Inductive AbortSignal : Type :=
| SignalOf (c : AbortController).

(** [RequestInit], restricted to the members the module sets. *)
Record RequestInit : Type := mkRequestInit {
  method : option HTTPMethods;
  cache : option RequestCache;
  headers : list (string * string);
  body : option BodyInit;
  signal : option AbortSignal
}.

(** [{ ...config, signal }] *)
Definition withSignal (config : RequestInit) (s : AbortSignal) : RequestInit :=
  {| method := method config;
     cache := cache config;
     headers := headers config;
     body := body config;
     signal := Some s |}.

(** [HTTPHeadersContentType.application_json] *)
Definition application_json : list (string * string) :=
  [("Content-Type", "application/json")].

(** How an evaluation ends: with a value, or with a thrown value. *)
Inductive Completion (A : Type) : Type :=
| Normal (a : A)
| Throw (t : Thrown).
Arguments Normal {A} a.
Arguments Throw {A} t.

(** A [Response] as the module uses it.  [bodyJson] is what [json()] yields
    once it is called: the decoded value, or the failure of the decoder. *)
Record Response : Type := mkResponse {
  status : N;
  statusText : string;
  bodyJson : Completion JSValue
}.

(** [Response.ok] is an accessor, not a stored flag: the Fetch standard
    defines it as "the status is in the range 200 to 299, inclusive". *)
Definition ok (response : Response) : bool :=
  (200 <=? status response)%N && (status response <=? 299)%N.

(** What the promise returned by [fetch] settles to. *)
Inductive FetchResult : Type :=
| Resolves (response : Response)
| Rejects (t : Thrown).

(** A zod schema, through the one method the module calls: [parse] returns
    the parsed value or throws. *)
Definition Schema : Type := JSValue -> Completion JSValue.

(** ** Effects *)

Inductive Event : Type :=
| ENewAbortController (c : AbortController)
| EFetch (url : string) (init : RequestInit)
| EResponseJson
| ESchemaParse (input : JSValue)
| ENewError (e : Error)
| EConsoleError (label : string) (msg : string) (why : option JSValue)
| EAbort (c : AbortController).

Record Run (A : Type) : Type := mkRun {
  completion : Completion A;
  events : list Event;
  nextId : nat
}.
Arguments mkRun {A} _ _ _.
Arguments completion {A} _.
Arguments events {A} _.
Arguments nextId {A} _.

(** A computation reads the next free controller number and yields its
    completion, the events it emitted in order, and the new counter. *)
Definition Eff (A : Type) : Type := nat -> Run A.

Definition ret {A} (a : A) : Eff A :=
  fun n => mkRun (Normal a) [] n.

Definition throw {A} (t : Thrown) : Eff A :=
  fun n => mkRun (Throw t) [] n.

Definition emit (ev : Event) : Eff unit :=
  fun n => mkRun (Normal tt) [ev] n.

Definition lift {A} (c : Completion A) : Eff A :=
  fun n => mkRun c [] n.

Definition bind {A B} (m : Eff A) (k : A -> Eff B) : Eff B :=
  fun n =>
    let r := m n in
    match completion r with
    | Normal a =>
        let r' := k a (nextId r) in
        mkRun (completion r') (events r ++ events r') (nextId r')
    | Throw t => mkRun (Throw t) (events r) (nextId r)
    end.

Notation "x <- m ;; k" := (bind m (fun x => k))
  (at level 100, m at next level, right associativity).
Notation "m ;;; k" := (bind m (fun _ => k))
  (at level 100, right associativity).

(** [try { body } catch (error) { handler } finally { cleanup }] *)
Definition tryCatchFinally {A}
    (body : Eff A) (handler : Thrown -> Eff A) (cleanup : Eff unit) : Eff A :=
  fun n =>
    let r1 := body n in
    let r2 :=
      match completion r1 with
      | Normal _ => r1
      | Throw t =>
          let r := handler t (nextId r1) in
          mkRun (completion r) (events r1 ++ events r) (nextId r)
      end in
    let r3 := cleanup (nextId r2) in
    mkRun
      match completion r3 with
      | Normal _ => completion r2
      | Throw t => Throw t
      end
      (events r2 ++ events r3) (nextId r3).

(** [new AbortController()] *)
Definition newAbortController : Eff AbortController :=
  fun n => mkRun (Normal n) [ENewAbortController n] (S n).

(** [abortController.abort()] *)
Definition abort (c : AbortController) : Eff unit :=
  emit (EAbort c).

(** [await response.json()] *)
Definition json (response : Response) : Eff JSValue :=
  emit EResponseJson ;;; lift (bodyJson response).

(** [schema.parse(input)] *)
Definition parse (schema : Schema) (input : JSValue) : Eff JSValue :=
  emit (ESchemaParse input) ;;; lift (schema input).

(** [`${n}`] for a status code *)
Definition numberToString (n : N) : string :=
  NilEmpty.string_of_uint (N.to_uint n).

(** [`${response.status}: ${response.statusText}`] *)
Definition statusLine (response : Response) : string :=
  numberToString (status response) +:+ ": " +:+ statusText response.

(** ** Error factories *)

(** [new Error(message)] followed by the assignment to [error.name]. *)
Definition newNamedError (kind msg : string) : Eff Error :=
  let error := {| name := kind; message := msg; cause := None |} in
  emit (ENewError error) ;;; ret error.

Definition createNetworkError (msg : string) : Eff Error :=
  newNamedError "NetworkError" msg.

Definition createClientError (msg : string) : Eff Error :=
  newNamedError "ClientError" msg.

Definition createServerError (msg : string) : Eff Error :=
  newNamedError "ServerError" msg.

(** ** Error handlers and dispatch *)

(** The functions a property lookup on [errorHandlers] can produce: the
    five handlers of the module, and the built-in functions that every
    object literal inherits from [Object.prototype]. *)
Inductive JSFunction : Type :=
| handleNetworkError_fn
| handleClientError_fn
| handleServerError_fn
| handleAbortError_fn
| handleUnexpectedError_fn
| Object_fn
| hasOwnProperty_fn
| isPrototypeOf_fn
| propertyIsEnumerable_fn
| toLocaleString_fn
| toString_fn
| valueOf_fn
| defineGetter_fn
| defineSetter_fn
| lookupGetter_fn
| lookupSetter_fn.

(** The value of a property: a function, or an object that cannot be
    called. *)
Inductive PropertyValue : Type :=
| PFunction (f : JSFunction)
| PObject.

(** [console.error(label, error.message, error.cause)] *)
Definition logError (label : string) (error : Error) : Eff unit :=
  emit (EConsoleError label (message error) (cause error)).

Definition handleNetworkError (error : Error) : Eff unit :=
  logError "Network error occurred:" error.

Definition handleClientError (error : Error) : Eff unit :=
  logError "Client error occurred:" error.

Definition handleServerError (error : Error) : Eff unit :=
  logError "Server error occurred:" error.

Definition handleAbortError (error : Error) : Eff unit :=
  logError "Request was aborted:" error.

Definition handleUnexpectedError (error : Error) : Eff unit :=
  logError "An unexpected error occurred:" error.

(** The [TypeError] the engine raises; the wording of its message is the
    engine's own. *)
Definition engineTypeError (msg : string) : Thrown :=
  ThrownError {| name := "TypeError"; message := msg; cause := None |}.

(** The own properties of [Object.prototype], which the object literal
    [errorHandlers] has as its prototype.  [__proto__] is an accessor; read
    through [errorHandlers] it yields [Object.prototype] itself, an object
    that is not callable. *)
Definition objectPrototype : gmap string PropertyValue :=
  list_to_map
    [("constructor", PFunction Object_fn);
     ("hasOwnProperty", PFunction hasOwnProperty_fn);
     ("isPrototypeOf", PFunction isPrototypeOf_fn);
     ("propertyIsEnumerable", PFunction propertyIsEnumerable_fn);
     ("toLocaleString", PFunction toLocaleString_fn);
     ("toString", PFunction toString_fn);
     ("valueOf", PFunction valueOf_fn);
     ("__defineGetter__", PFunction defineGetter_fn);
     ("__defineSetter__", PFunction defineSetter_fn);
     ("__lookupGetter__", PFunction lookupGetter_fn);
     ("__lookupSetter__", PFunction lookupSetter_fn);
     ("__proto__", PObject)].

(** [obj[key]] on an object literal: the own property if there is one,
    otherwise the property inherited from [Object.prototype], otherwise
    [undefined] (here [None]). *)
Definition jsGet (own : gmap string PropertyValue) (key : string)
    : option PropertyValue :=
  match own !! key with
  | Some v => Some v
  | None => objectPrototype !! key
  end.

(** A plain call [f(error)]: the receiver is [undefined].  The handlers
    log.  [Object(error)] returns its argument and
    [Object.prototype.toString] answers for an [undefined] receiver; the
    other built-ins convert their receiver to an object first, which
    raises a [TypeError] for [undefined]. *)
Definition callFunction (f : JSFunction) (error : Error) : Eff unit :=
  match f with
  | handleNetworkError_fn => handleNetworkError error
  | handleClientError_fn => handleClientError error
  | handleServerError_fn => handleServerError error
  | handleAbortError_fn => handleAbortError error
  | handleUnexpectedError_fn => handleUnexpectedError error
  | Object_fn | toString_fn => ret tt
  | hasOwnProperty_fn | isPrototypeOf_fn | propertyIsEnumerable_fn
  | toLocaleString_fn | valueOf_fn
  | defineGetter_fn | defineSetter_fn | lookupGetter_fn | lookupSetter_fn =>
      throw (engineTypeError "Cannot convert undefined or null to object")
  end.

(** [errorHandler(error)] for whatever value [errorHandler] holds. *)
Definition call (v : PropertyValue) (error : Error) : Eff unit :=
  match v with
  | PFunction f => callFunction f error
  | PObject => throw (engineTypeError "errorHandler is not a function")
  end.

(** The object literal of [handleErrors]. *)
Definition errorHandlers : gmap string PropertyValue :=
  {[ "AbortError" := PFunction handleAbortError_fn;
     "NetworkError" := PFunction handleNetworkError_fn;
     "ClientError" := PFunction handleClientError_fn;
     "ServerError" := PFunction handleServerError_fn ]}.

(** [handleErrors]: every value a lookup can produce is truthy, so [||]
    takes its right operand exactly when the lookup is [undefined]. *)
Definition handleErrors (error : Error) : Eff unit :=
  let errorHandler :=
    match jsGet errorHandlers (name error) with
    | Some v => v
    | None => PFunction handleUnexpectedError_fn
    end in
  call errorHandler error.

(** ** The request and its wrappers *)

Section Transport.

(** The platform's [fetch]: what the call settles to for a given address
    and configuration. *)
Variable fetch : string -> RequestInit -> FetchResult.

(** [await fetch(url, init)] *)
Definition awaitFetch (url : string) (init : RequestInit) : Eff Response :=
  emit (EFetch url init) ;;;
  match fetch url init with
  | Resolves response => ret response
  | Rejects t => throw t
  end.

Definition request (url : string) (config : RequestInit)
    (responseSchema : Schema) : Eff JSValue :=
  abortController <- newAbortController ;;
  let signal := SignalOf abortController in
  tryCatchFinally
    (response <- awaitFetch url (withSignal config signal) ;;
     (if negb (ok response) then
        if (400 <=? status response)%N && (status response <? 500)%N then
          error <- createClientError (statusLine response) ;;
          throw (ThrownError error)
        else if (500 <=? status response)%N then
          error <- createServerError (statusLine response) ;;
          throw (ThrownError error)
        else ret tt
      else ret tt) ;;;
     decoded <- json response ;;
     parse responseSchema decoded)
    (fun error =>
       match error with
       | ThrownError e => handleErrors e
       | ThrownOther _ => ret tt
       end ;;;
       throw error)
    (abort abortController).

Definition _get (url : string) (responseSchema : Schema) (apiKey : string)
    : Eff JSValue :=
  request url
    {| method := Some GET;
       cache := Some cache_no_store;
       headers := [("X-API-KEY", apiKey)];
       body := None;
       signal := None |}
    responseSchema.

(** The shape shared by [_post], [_put], [_patch] and [_delete], with the
    verb as a parameter: the argument [querySchema.parse(query)] is
    evaluated before [request] is entered. *)
Definition withBody (verb : HTTPMethods) (url : string)
    (querySchema : Schema) (query : JSValue) (responseSchema : Schema)
    : Eff JSValue :=
  parsed <- parse querySchema query ;;
  request url
    {| method := Some verb;
       cache := None;
       headers := application_json;
       body := Some (JSON_stringify parsed);
       signal := None |}
    responseSchema.

Definition _post (url : string) (querySchema : Schema) (query : JSValue)
    (responseSchema : Schema) : Eff JSValue :=
  parsed <- parse querySchema query ;;
  request url
    {| method := Some POST;
       cache := None;
       headers := application_json;
       body := Some (JSON_stringify parsed);
       signal := None |}
    responseSchema.

Definition _put (url : string) (querySchema : Schema) (query : JSValue)
    (responseSchema : Schema) : Eff JSValue :=
  parsed <- parse querySchema query ;;
  request url
    {| method := Some PUT;
       cache := None;
       headers := application_json;
       body := Some (JSON_stringify parsed);
       signal := None |}
    responseSchema.

Definition _patch (url : string) (querySchema : Schema) (query : JSValue)
    (responseSchema : Schema) : Eff JSValue :=
  parsed <- parse querySchema query ;;
  request url
    {| method := Some PATCH;
       cache := None;
       headers := application_json;
       body := Some (JSON_stringify parsed);
       signal := None |}
    responseSchema.

Definition _delete (url : string) (querySchema : Schema) (query : JSValue)
    (responseSchema : Schema) : Eff JSValue :=
  parsed <- parse querySchema query ;;
  request url
    {| method := Some DELETE;
       cache := None;
       headers := application_json;
       body := Some (JSON_stringify parsed);
       signal := None |}
    responseSchema.

End Transport.

Arguments statusLine : simpl never.
Arguments numberToString : simpl never.
Arguments handleErrors : simpl never.

(** ** Reference points of the statements *)

(** The statements of the [try] block of [request], for the controller
    [abortController]. *)
Definition tryBlock (fetch : string -> RequestInit -> FetchResult)
    (url : string) (config : RequestInit) (responseSchema : Schema)
    (abortController : AbortController) : Eff JSValue :=
  response <- awaitFetch fetch url (withSignal config (SignalOf abortController)) ;;
  (if negb (ok response) then
     if (400 <=? status response)%N && (status response <? 500)%N then
       error <- createClientError (statusLine response) ;;
       throw (ThrownError error)
     else if (500 <=? status response)%N then
       error <- createServerError (statusLine response) ;;
       throw (ThrownError error)
     else ret tt
   else ret tt) ;;;
  decoded <- json response ;;
  parse responseSchema decoded.

(** The statements of the [catch] block. *)
Definition catchBlock (error : Thrown) : Eff JSValue :=
  match error with
  | ThrownError e => handleErrors e
  | ThrownOther _ => ret tt
  end ;;;
  throw error.

(** The four names that are keys of [errorHandlers]. *)
Definition mappedKinds : list string :=
  ["AbortError"; "NetworkError"; "ClientError"; "ServerError"].

(** The first argument a handler passes to [console.error], by the name
    that selects the handler. *)
Definition labelFor (kind : string) : string :=
  if decide (kind = "AbortError") then "Request was aborted:"
  else if decide (kind = "NetworkError") then "Network error occurred:"
  else if decide (kind = "ClientError") then "Client error occurred:"
  else if decide (kind = "ServerError") then "Server error occurred:"
  else "An unexpected error occurred:".

(** [needle] occurs in [hay]. *)
Definition contains (needle hay : string) : Prop :=
  exists before after, hay = before +:+ needle +:+ after.

(** Events by what they record. *)
Definition isControllerEvent (ev : Event) : bool :=
  match ev with
  | ENewAbortController _ | EAbort _ => true
  | _ => false
  end.

Definition isCreation (ev : Event) : bool :=
  match ev with
  | ENewAbortController _ => true
  | _ => false
  end.

Definition isRelease (ev : Event) : bool :=
  match ev with
  | EAbort _ => true
  | _ => false
  end.

Definition isFetch (ev : Event) : bool :=
  match ev with
  | EFetch _ _ => true
  | _ => false
  end.

Definition isDecodeOrValidate (ev : Event) : bool :=
  match ev with
  | EResponseJson | ESchemaParse _ => true
  | _ => false
  end.

Definition isNewError (ev : Event) : bool :=
  match ev with
  | ENewError _ => true
  | _ => false
  end.

Definition isDispatch (ev : Event) : bool :=
  match ev with
  | EConsoleError _ _ _ => true
  | _ => false
  end.

(** How many events of a run satisfy [p]. *)
Fixpoint count (p : Event -> bool) (l : list Event) : nat :=
  match l with
  | [] => 0
  | ev :: rest => (if p ev then 1 else 0) + count p rest
  end.

(** What the [try] block does after the network call: decoding,
    validating, constructing an error. *)
Definition isAttempt (ev : Event) : bool :=
  match ev with
  | EResponseJson | ESchemaParse _ | ENewError _ => true
  | _ => false
  end.

(** A computation that emits events of one sort only and allocates no
    controller. *)
Definition only {A} (p : Event -> bool) (m : Eff A) : Prop :=
  forall n, Forall (fun ev => p ev = true) (events (m n)) /\ nextId (m n) = n.

(** A wrapper that failed before [request] was entered: the caller gets
    [t], and the run has no network call, no controller and no dispatch. *)
Definition rejectedBeforeRequest (r : Run JSValue) (t : Thrown) : Prop :=
  completion r = Throw t /\
  count isFetch (events r) = 0 /\
  count isControllerEvent (events r) = 0 /\
  count isDispatch (events r) = 0.

(** ** Stub collaborators used by the examples *)

(** A transport that settles every call the same way. *)
Definition stubFetch (outcome : FetchResult) : string -> RequestInit -> FetchResult :=
  fun _ _ => outcome.

(** A schema that accepts everything and returns its input ([z.any()]). *)
Definition anySchema : Schema := fun v => Normal v.

(** The failure of a zod schema: a [ZodError]. *)
Definition zodError (msg : string) : Error :=
  {| name := "ZodError"; message := msg; cause := None |}.

Definition field (key : string) (fields : list (string * JSValue)) : option JSValue :=
  snd <$> List.find (fun kv => String.eqb (fst kv) key) fields.

(** [z.object({ id: z.number(), name: z.string() })]: zod's objects keep the
    declared keys and strip the others. *)
Definition UserSchema : Schema := fun v =>
  match v with
  | JObject fields =>
      match field "id" fields, field "name" fields with
      | Some (JNumber id), Some (JString nm) =>
          Normal (JObject [("id", JNumber id); ("name", JString nm)])
      | _, _ => Throw (ThrownError (zodError "Invalid input"))
      end
  | _ => Throw (ThrownError (zodError "Invalid input"))
  end.

(** A schema whose refinement throws a string: [z.any().refine(() => { throw "boom" })]. *)
Definition throwingSchema : Schema := fun _ => Throw (ThrownOther (JString "boom")).

(** The configuration [_get] builds. *)
Definition getConfig (apiKey : string) : RequestInit :=
  {| method := Some GET;
     cache := Some cache_no_store;
     headers := [("X-API-KEY", apiKey)];
     body := None;
     signal := None |}.

(** The configuration a body-carrying wrapper builds. *)
Definition bodyConfig (verb : HTTPMethods) (parsed : JSValue) : RequestInit :=
  {| method := Some verb;
     cache := None;
     headers := application_json;
     body := Some (JSON_stringify parsed);
     signal := None |}.

Definition exampleUrl : string := "https://api.example.com/users/1".

(** [{"id":1,"name":"Ana"}] *)
Definition userAna : JSValue :=
  JObject [("id", JNumber 1); ("name", JString "Ana")].

(** [{"id":1,"name":"Ana","admin":true}] *)
Definition userAnaAdmin : JSValue :=
  JObject [("id", JNumber 1); ("name", JString "Ana"); ("admin", JBool true)].

(** What Node's [fetch] rejects with when the connection fails. *)
Definition fetchFailed : Error :=
  {| name := "TypeError"; message := "fetch failed"; cause := None |}.

(** ** The paths of a run *)

(** The run of [request] from the point where the [try] block has thrown
    [t] after emitting [attempt]: the [catch] block runs, then the
    release. *)
Definition caught (n : nat) (attempt : list Event) (t : Thrown) : Run JSValue :=
  let h := catchBlock t (S n) in
  mkRun (completion h)
    (ENewAbortController n :: (attempt ++ events h) ++ [EAbort n]) (nextId h).

(** The six ways through [request], by what the transport, the status
    tests, the decoder and the schema do. *)
Inductive Path (fetch : string -> RequestInit -> FetchResult)
    (url : string) (config : RequestInit) (responseSchema : Schema) (n : nat)
    : Run JSValue -> Prop :=
| PathRejected t :
    fetch url (withSignal config (SignalOf n)) = Rejects t ->
    Path fetch url config responseSchema n
      (caught n [EFetch url (withSignal config (SignalOf n))] t)
| PathClient response :
    fetch url (withSignal config (SignalOf n)) = Resolves response ->
    (400 <= status response)%N -> (status response < 500)%N ->
    let error :=
      {| name := "ClientError"; message := statusLine response; cause := None |} in
    Path fetch url config responseSchema n
      (caught n [EFetch url (withSignal config (SignalOf n)); ENewError error]
         (ThrownError error))
| PathServer response :
    fetch url (withSignal config (SignalOf n)) = Resolves response ->
    (500 <= status response)%N ->
    let error :=
      {| name := "ServerError"; message := statusLine response; cause := None |} in
    Path fetch url config responseSchema n
      (caught n [EFetch url (withSignal config (SignalOf n)); ENewError error]
         (ThrownError error))
| PathUndecodable response t :
    fetch url (withSignal config (SignalOf n)) = Resolves response ->
    (status response < 400)%N ->
    bodyJson response = Throw t ->
    Path fetch url config responseSchema n
      (caught n [EFetch url (withSignal config (SignalOf n)); EResponseJson] t)
| PathInvalid response decoded t :
    fetch url (withSignal config (SignalOf n)) = Resolves response ->
    (status response < 400)%N ->
    bodyJson response = Normal decoded ->
    responseSchema decoded = Throw t ->
    Path fetch url config responseSchema n
      (caught n
         [EFetch url (withSignal config (SignalOf n)); EResponseJson;
          ESchemaParse decoded] t)
| PathResolved response decoded validated :
    fetch url (withSignal config (SignalOf n)) = Resolves response ->
    (status response < 400)%N ->
    bodyJson response = Normal decoded ->
    responseSchema decoded = Normal validated ->
    Path fetch url config responseSchema n
      (mkRun (Normal validated)
         [ENewAbortController n;
          EFetch url (withSignal config (SignalOf n));
          EResponseJson;
          ESchemaParse decoded;
          EAbort n] (S n)).

(** The property names of [Object.prototype] whose value returns when it
    is called as [handleErrors] calls it. *)
Definition returningMembers : list string := ["constructor"; "toString"].

(** No character of [s] is a colon. *)
Fixpoint colonFree (s : string) : bool :=
  match s with
  | EmptyString => true
  | String c rest => negb (Ascii.eqb c ":"%char) && colonFree rest
  end.

Definition isJsonCall (ev : Event) : bool :=
  match ev with
  | EResponseJson => true
  | _ => false
  end.

Definition isParseCall (ev : Event) : bool :=
  match ev with
  | ESchemaParse _ => true
  | _ => false
  end.

(** The run [r] issues exactly one network call, to [url], with [config]
    and the signal of the controller [n]. *)
Definition callsWith (r : Run JSValue) (url : string) (config : RequestInit)
    (n : nat) : Prop :=
  count isFetch (events r) = 1 /\
  forall u init, EFetch u init ∈ events r ->
                 u = url /\ init = withSignal config (SignalOf n).

(** [validated] is what the response schema returned for the decoded body
    of a response below 400 that the transport resolved to. *)
Definition resolvedThrough (fetch : string -> RequestInit -> FetchResult)
    (url : string) (config : RequestInit) (responseSchema : Schema) (n : nat)
    (validated : JSValue) : Prop :=
  exists response decoded,
    fetch url (withSignal config (SignalOf n)) = Resolves response /\
    (status response < 400)%N /\
    bodyJson response = Normal decoded /\
    responseSchema decoded = Normal validated.

(** The run [r] of a body-carrying wrapper: the query schema is applied
    first, at most one network call is issued, and a call that is issued
    has the wrapper's shape. *)
Definition wrapperCall (r : Run JSValue) (verb : HTTPMethods) (url : string)
    (querySchema : Schema) (query : JSValue) (n : nat) : Prop :=
  head (events r) = Some (ESchemaParse query) /\
  count isFetch (events r) <= 1 /\
  forall u init, EFetch u init ∈ events r ->
    u = url /\
    method init = Some verb /\
    headers init = [("Content-Type", "application/json")] /\
    cache init = None /\
    signal init = Some (SignalOf n) /\
    forall text, body init = Some text ->
      exists parsed, querySchema query = Normal parsed /\ text = JSON_stringify parsed.

(** What [JSON.parse] raises on a malformed body. *)
Definition syntaxError : Error :=
  {| name := "SyntaxError"; message := "Unexpected end of JSON input"; cause := None |}.

(** An error that carries the name of the prototype accessor. *)
Definition protoNamedError : Error :=
  {| name := "__proto__"; message := "gateway unreachable"; cause := None |}.

(** ** The effect monad *)

Lemma count_app p l1 l2 : count p (l1 ++ l2) = count p l1 + count p l2.
Proof.
  induction l1 as [|ev l1 IH]; simpl; [reflexivity|].
  rewrite IH. lia.
Qed.

Lemma count_none p l :
  Forall (fun ev => p ev = false) l -> count p l = 0.
Proof.
  induction 1 as [|ev l Hev _ IH]; simpl; [reflexivity|].
  rewrite Hev, IH. reflexivity.
Qed.

(** Events of one sort are not counted by a predicate that is false on
    that sort. *)
Lemma count_disjoint p q l :
  (forall ev, p ev = true -> q ev = false) ->
  Forall (fun ev => p ev = true) l -> count q l = 0.
Proof.
  intros Hpq Hl. apply count_none.
  eapply Forall_impl; [exact Hl|]. exact Hpq.
Qed.

Lemma only_ret {A} p (a : A) : only p (ret a).
Proof. intros n. split; [constructor | reflexivity]. Qed.

Lemma only_throw {A} p t : only p (@throw A t).
Proof. intros n. split; [constructor | reflexivity]. Qed.

Lemma only_lift {A} p (c : Completion A) : only p (lift c).
Proof. intros n. split; [constructor | reflexivity]. Qed.

Lemma only_emit p ev : p ev = true -> only p (emit ev).
Proof. intros H n. split; [repeat constructor; exact H | reflexivity]. Qed.

Lemma only_bind {A B} p (m : Eff A) (k : A -> Eff B) :
  only p m -> (forall a, only p (k a)) -> only p (bind m k).
Proof.
  intros Hm Hk n. unfold bind.
  destruct (Hm n) as [Hev Hid].
  destruct (completion (m n)) as [a|t]; simpl.
  - destruct (Hk a (nextId (m n))) as [Hev' Hid'].
    split; [apply Forall_app; split; assumption | congruence].
  - split; assumption.
Qed.

Create HintDb only.
#[local] Hint Resolve only_ret only_throw only_lift only_bind : only.

(** ** Dispatch *)

Lemma only_callFunction f e : only isDispatch (callFunction f e).
Proof.
  destruct f; simpl; auto with only;
    apply only_emit; reflexivity.
Qed.

(** [handleErrors] logs or stays silent; it emits nothing else. *)
Lemma only_handleErrors e : only isDispatch (handleErrors e).
Proof.
  unfold handleErrors, call.
  destruct (jsGet errorHandlers (name e)) as [[f|]|];
    auto using only_callFunction with only.
Qed.

Lemma errorHandlers_lookup_None (kind : string) :
  kind ∉ mappedKinds -> errorHandlers !! kind = None.
Proof.
  unfold mappedKinds, errorHandlers. intros Hk.
  rewrite !lookup_insert_ne, lookup_singleton_ne;
    [reflexivity | | | |]; intros <-; apply Hk; set_solver.
Qed.

Lemma jsGet_unmapped (kind : string) :
  kind ∉ mappedKinds -> objectPrototype !! kind = None ->
  jsGet errorHandlers kind = None.
Proof.
  intros Hk Hp. unfold jsGet.
  rewrite (errorHandlers_lookup_None kind Hk). exact Hp.
Qed.

Lemma labelFor_unmapped (kind : string) :
  kind ∉ mappedKinds -> labelFor kind = "An unexpected error occurred:".
Proof.
  unfold mappedKinds, labelFor. intros Hk.
  repeat case_decide; try reflexivity; subst; exfalso; apply Hk; set_solver.
Qed.

(** An error whose name the lookup does not resolve goes to
    [handleUnexpectedError]. *)
Lemma handleErrors_default e n :
  jsGet errorHandlers (name e) = None ->
  handleErrors e n =
    mkRun (Normal tt)
      [EConsoleError "An unexpected error occurred:" (message e) (cause e)] n.
Proof. intros H. unfold handleErrors. rewrite H. reflexivity. Qed.

(** An error whose name is not a property of [Object.prototype] is logged
    once, by the handler its name selects, and the call returns. *)
Lemma handleErrors_plain e n :
  objectPrototype !! name e = None ->
  handleErrors e n =
    mkRun (Normal tt)
      [EConsoleError (labelFor (name e)) (message e) (cause e)] n.
Proof.
  intros Hp. destruct e as [kind msg why]. simpl in *.
  destruct (decide (kind ∈ mappedKinds)) as [Hin|Hout].
  - unfold mappedKinds in Hin.
    repeat (apply elem_of_cons in Hin as [->|Hin]); [reflexivity .. |].
    inversion Hin.
  - rewrite handleErrors_default by (apply jsGet_unmapped; assumption).
    simpl. rewrite labelFor_unmapped by assumption. reflexivity.
Qed.

(** Names inherited from [Object.prototype] select no handler of the
    module: [toString] is called and nothing is logged; [__proto__] yields
    an object, and calling it raises a [TypeError]. *)
Lemma handleErrors_toString msg why n :
  handleErrors {| name := "toString"; message := msg; cause := why |} n =
    mkRun (Normal tt) [] n.
Proof. reflexivity. Qed.

Lemma handleErrors_proto msg why n :
  handleErrors {| name := "__proto__"; message := msg; cause := why |} n =
    mkRun (Throw (engineTypeError "errorHandler is not a function")) [] n.
Proof. reflexivity. Qed.

(** ** The three blocks of [request] *)

Lemma request_unfold fetch url config responseSchema :
  request fetch url config responseSchema =
  (abortController <- newAbortController ;;
   tryCatchFinally (tryBlock fetch url config responseSchema abortController)
     catchBlock (abort abortController)).
Proof. reflexivity. Qed.

(** A run of [request] is the creation of the controller, the run of the
    [try] block, the run of the [catch] block when the [try] block threw,
    and the release. *)
Lemma request_run fetch url config responseSchema n :
  request fetch url config responseSchema n =
  let b := tryBlock fetch url config responseSchema n (S n) in
  match completion b with
  | Normal v =>
      mkRun (Normal v) (ENewAbortController n :: events b ++ [EAbort n]) (nextId b)
  | Throw t =>
      let h := catchBlock t (nextId b) in
      mkRun (completion h)
        (ENewAbortController n :: (events b ++ events h) ++ [EAbort n]) (nextId h)
  end.
Proof.
  rewrite request_unfold.
  unfold bind, tryCatchFinally, newAbortController, abort, emit. cbn.
  destruct (completion (tryBlock fetch url config responseSchema n (S n)))
    eqn:Hb; cbn; rewrite ?Hb; reflexivity.
Qed.

Lemma catchBlock_other v m :
  catchBlock (ThrownOther v) m = mkRun (Throw (ThrownOther v)) [] m.
Proof. reflexivity. Qed.

Lemma catchBlock_plain e m :
  objectPrototype !! name e = None ->
  catchBlock (ThrownError e) m =
    mkRun (Throw (ThrownError e))
      [EConsoleError (labelFor (name e)) (message e) (cause e)] m.
Proof.
  intros Hp. unfold catchBlock, bind.
  rewrite (handleErrors_plain e m Hp). reflexivity.
Qed.

Lemma only_catchBlock t : only isDispatch (catchBlock t).
Proof.
  unfold catchBlock. apply only_bind; [|auto with only].
  destruct t; auto using only_handleErrors with only.
Qed.

Lemma ok_false_above (response : Response) :
  (300 <= status response)%N -> ok response = false.
Proof.
  intros H. unfold ok. apply andb_false_iff. right. apply N.leb_gt. lia.
Qed.

Lemma tryBlock_rejects fetch url config responseSchema c m t :
  fetch url (withSignal config (SignalOf c)) = Rejects t ->
  tryBlock fetch url config responseSchema c m =
    mkRun (Throw t) [EFetch url (withSignal config (SignalOf c))] m.
Proof.
  intros Hf. unfold tryBlock, awaitFetch, bind, emit. cbn.
  rewrite Hf. reflexivity.
Qed.

Lemma tryBlock_client fetch url config responseSchema c m response :
  fetch url (withSignal config (SignalOf c)) = Resolves response ->
  (400 <= status response)%N -> (status response < 500)%N ->
  let error :=
    {| name := "ClientError"; message := statusLine response; cause := None |} in
  tryBlock fetch url config responseSchema c m =
    mkRun (Throw (ThrownError error))
      [EFetch url (withSignal config (SignalOf c)); ENewError error] m.
Proof.
  intros Hf Hlo Hhi error. unfold tryBlock, awaitFetch, bind, emit. cbn.
  rewrite Hf. cbn.
  rewrite ok_false_above by lia.
  replace (400 <=? status response)%N with true by (symmetry; apply N.leb_le; lia).
  replace (status response <? 500)%N with true by (symmetry; apply N.ltb_lt; lia).
  reflexivity.
Qed.

Lemma tryBlock_server fetch url config responseSchema c m response :
  fetch url (withSignal config (SignalOf c)) = Resolves response ->
  (500 <= status response)%N ->
  let error :=
    {| name := "ServerError"; message := statusLine response; cause := None |} in
  tryBlock fetch url config responseSchema c m =
    mkRun (Throw (ThrownError error))
      [EFetch url (withSignal config (SignalOf c)); ENewError error] m.
Proof.
  intros Hf Hlo error. unfold tryBlock, awaitFetch, bind, emit. cbn.
  rewrite Hf. cbn.
  rewrite ok_false_above by lia.
  replace (status response <? 500)%N with false by (symmetry; apply N.ltb_ge; lia).
  replace (500 <=? status response)%N with true by (symmetry; apply N.leb_le; lia).
  rewrite andb_false_r. reflexivity.
Qed.

(** Below 400 the classification raises nothing, whatever [ok] says, and
    the body is decoded and validated. *)
Lemma tryBlock_below_400 fetch url config responseSchema c m response :
  fetch url (withSignal config (SignalOf c)) = Resolves response ->
  (status response < 400)%N ->
  tryBlock fetch url config responseSchema c m =
    match bodyJson response with
    | Normal decoded =>
        mkRun (responseSchema decoded)
          [EFetch url (withSignal config (SignalOf c)); EResponseJson;
           ESchemaParse decoded] m
    | Throw t =>
        mkRun (Throw t)
          [EFetch url (withSignal config (SignalOf c)); EResponseJson] m
    end.
Proof.
  intros Hf Hlt. unfold tryBlock, awaitFetch, json, parse, lift, bind, emit. cbn.
  rewrite Hf. cbn.
  replace (400 <=? status response)%N with false by (symmetry; apply N.leb_gt; lia).
  replace (500 <=? status response)%N with false by (symmetry; apply N.leb_gt; lia).
  destruct (negb (ok response)); cbn;
    destruct (bodyJson response) as [decoded|t]; cbn;
    try destruct (responseSchema decoded); reflexivity.
Qed.

(** The [try] block starts with the network call, carrying the caller's
    configuration and the signal of this call's controller; what follows
    is decoding, validating or the construction of an error. *)
Lemma tryBlock_shape fetch url config responseSchema c m :
  exists rest,
    events (tryBlock fetch url config responseSchema c m) =
      EFetch url (withSignal config (SignalOf c)) :: rest /\
    Forall (fun ev => isAttempt ev = true) rest /\
    nextId (tryBlock fetch url config responseSchema c m) = m.
Proof.
  unfold tryBlock, awaitFetch.
  set (init := withSignal config (SignalOf c)).
  destruct (fetch url init) as [response|t] eqn:Hf.
  - set (k := fun response : Response => _).
    assert (Hk : only isAttempt (k response)).
    { subst k. cbv beta. apply only_bind.
      - repeat match goal with
               | |- only _ (if ?b then _ else _) => destruct b
               end; auto with only;
          (apply only_bind; [|auto with only]);
          unfold createClientError, createServerError, newNamedError;
          (apply only_bind; [apply only_emit; reflexivity | auto with only]).
      - intros _. apply only_bind.
        + unfold json. apply only_bind; [apply only_emit; reflexivity | auto with only].
        + intros v. unfold parse.
          apply only_bind; [apply only_emit; reflexivity | auto with only]. }
    destruct (Hk m) as [Hev Hid].
    exists (events (k response m)).
    unfold bind, emit, ret. cbn.
    destruct (completion (k response m)); cbn; auto.
  - exists []. unfold bind, emit, throw. cbn. auto.
Qed.

(** Every run of [request] has the same outline: the controller is
    created, the network call is issued with the caller's configuration
    and the controller's signal, the [try] block goes on, the [catch]
    block dispatches, and the controller is released. *)
Lemma request_shape fetch url config responseSchema n :
  exists attempt dispatch,
    events (request fetch url config responseSchema n) =
      ENewAbortController n
        :: EFetch url (withSignal config (SignalOf n))
        :: attempt ++ dispatch ++ [EAbort n] /\
    Forall (fun ev => isAttempt ev = true) attempt /\
    Forall (fun ev => isDispatch ev = true) dispatch.
Proof.
  rewrite request_run.
  destruct (tryBlock_shape fetch url config responseSchema n (S n))
    as (rest & Hev & Hrest & Hid).
  cbv zeta.
  destruct (completion (tryBlock fetch url config responseSchema n (S n)))
    as [v|t]; cbn [events].
  - exists rest, []. rewrite Hev. auto.
  - exists rest, (events (catchBlock t (nextId (tryBlock fetch url config responseSchema n (S n))))).
    rewrite Hev. split; [|split].
    + cbn. rewrite <- !app_assoc. reflexivity.
    + assumption.
    + apply only_catchBlock.
Qed.

(** ** Classification by status code *)

Lemma contains_prefix (needle rest : string) : contains needle (needle +:+ rest).
Proof. exists "", rest. reflexivity. Qed.

(** C1: a response whose status is in [400,500) makes [request] fail with
    a [ClientError] whose message is the status, a colon and the status
    text (so it contains "404" for status 404); the body is neither
    decoded nor validated. *)
Theorem client_error_for_4xx fetch url config responseSchema n response :
  fetch url (withSignal config (SignalOf n)) = Resolves response ->
  (400 <= status response)%N -> (status response < 500)%N ->
  let error :=
    {| name := "ClientError";
       message := numberToString (status response) +:+ ": " +:+ statusText response;
       cause := None |} in
  let r := request fetch url config responseSchema n in
  r = mkRun (Throw (ThrownError error))
        [ENewAbortController n;
         EFetch url (withSignal config (SignalOf n));
         ENewError error;
         EConsoleError "Client error occurred:" (message error) None;
         EAbort n] (S n) /\
  count isDecodeOrValidate (events r) = 0 /\
  (status response = 404%N -> contains "404" (message error)).
Proof.
  intros Hf Hlo Hhi error r.
  assert (Hr : r = mkRun (Throw (ThrownError error))
        [ENewAbortController n;
         EFetch url (withSignal config (SignalOf n));
         ENewError error;
         EConsoleError "Client error occurred:" (message error) None;
         EAbort n] (S n)).
  { subst r. rewrite request_run.
    rewrite (tryBlock_client _ _ _ _ _ _ _ Hf Hlo Hhi). reflexivity. }
  split; [exact Hr|]. split.
  - rewrite Hr. reflexivity.
  - intros H404. subst error. cbn [message]. rewrite H404.
    apply (contains_prefix "404").
Qed.

Lemma client_error_for_4xx_witness :
  completion
    (request (stubFetch (Resolves (mkResponse 404 "Not Found" (Normal JNull))))
       exampleUrl (getConfig "key") anySchema 0) =
  Throw (ThrownError
    {| name := "ClientError"; message := "404: Not Found"; cause := None |}).
Proof.
  pose proof (client_error_for_4xx
    (stubFetch (Resolves (mkResponse 404 "Not Found" (Normal JNull))))
    exampleUrl (getConfig "key") anySchema 0
    (mkResponse 404 "Not Found" (Normal JNull))
    eq_refl ltac:(simpl; lia) ltac:(simpl; lia)) as [Hr _].
  rewrite Hr. reflexivity.
Defined.

(** C2: a response whose status is at least 500 makes [request] fail with
    a [ServerError] whose message is the status, a colon and the status
    text; for 500 "Internal Server Error" it is exactly
    "500: Internal Server Error". *)
Theorem server_error_for_5xx fetch url config responseSchema n response :
  fetch url (withSignal config (SignalOf n)) = Resolves response ->
  (500 <= status response)%N ->
  let error :=
    {| name := "ServerError";
       message := numberToString (status response) +:+ ": " +:+ statusText response;
       cause := None |} in
  let r := request fetch url config responseSchema n in
  r = mkRun (Throw (ThrownError error))
        [ENewAbortController n;
         EFetch url (withSignal config (SignalOf n));
         ENewError error;
         EConsoleError "Server error occurred:" (message error) None;
         EAbort n] (S n) /\
  (status response = 500%N -> statusText response = "Internal Server Error" ->
   message error = "500: Internal Server Error").
Proof.
  intros Hf Hlo error r. split.
  - subst r. rewrite request_run.
    rewrite (tryBlock_server _ _ _ _ _ _ _ Hf Hlo). reflexivity.
  - intros H500 Htext. subst error. cbn [message].
    rewrite H500, Htext. reflexivity.
Qed.

Lemma server_error_for_5xx_witness :
  completion
    (request
       (stubFetch (Resolves (mkResponse 500 "Internal Server Error" (Normal JNull))))
       exampleUrl (getConfig "key") UserSchema 0) =
  Throw (ThrownError
    {| name := "ServerError";
       message := "500: Internal Server Error";
       cause := None |}).
Proof.
  pose proof (server_error_for_5xx
    (stubFetch (Resolves (mkResponse 500 "Internal Server Error" (Normal JNull))))
    exampleUrl (getConfig "key") UserSchema 0
    (mkResponse 500 "Internal Server Error" (Normal JNull))
    eq_refl ltac:(simpl; lia)) as [Hr _].
  rewrite Hr. reflexivity.
Defined.

(** ** Decoding and validation *)

(** The run of [request] for a response below 400 whose body decodes and
    which the schema accepts. *)
Lemma request_accepted fetch url config responseSchema n response decoded validated :
  fetch url (withSignal config (SignalOf n)) = Resolves response ->
  (status response < 400)%N ->
  bodyJson response = Normal decoded ->
  responseSchema decoded = Normal validated ->
  request fetch url config responseSchema n =
    mkRun (Normal validated)
      [ENewAbortController n;
       EFetch url (withSignal config (SignalOf n));
       EResponseJson;
       ESchemaParse decoded;
       EAbort n] (S n).
Proof.
  intros Hf Hlt Hbody Hparse. rewrite request_run.
  rewrite (tryBlock_below_400 _ _ _ _ _ _ _ Hf Hlt), Hbody, Hparse.
  reflexivity.
Qed.

(** C3, as the code has it: for status 200 and a body that decodes to a
    value the response schema accepts, [request] resolves to the value the
    schema returns for the decoded JSON; that value is the decoded JSON
    itself when the schema returns its input unchanged. *)
Theorem resolves_to_schema_output fetch url config responseSchema n response decoded validated :
  fetch url (withSignal config (SignalOf n)) = Resolves response ->
  status response = 200%N ->
  bodyJson response = Normal decoded ->
  responseSchema decoded = Normal validated ->
  let r := request fetch url config responseSchema n in
  completion r = Normal validated /\
  events r =
    [ENewAbortController n;
     EFetch url (withSignal config (SignalOf n));
     EResponseJson;
     ESchemaParse decoded;
     EAbort n] /\
  (validated = decoded -> completion r = Normal decoded).
Proof.
  intros Hf H200 Hbody Hparse r.
  assert (Hlt : (status response < 400)%N) by (rewrite H200; lia).
  subst r. rewrite (request_accepted _ _ _ _ _ _ _ _ Hf Hlt Hbody Hparse).
  cbn. repeat split. intros ->. reflexivity.
Qed.

Lemma resolves_to_schema_output_witness :
  completion
    (request (stubFetch (Resolves (mkResponse 200 "OK" (Normal userAna))))
       exampleUrl (getConfig "key") UserSchema 0) = Normal userAna.
Proof.
  pose proof (resolves_to_schema_output
    (stubFetch (Resolves (mkResponse 200 "OK" (Normal userAna))))
    exampleUrl (getConfig "key") UserSchema 0
    (mkResponse 200 "OK" (Normal userAna)) userAna userAna
    eq_refl eq_refl eq_refl eq_refl) as [Hr _].
  exact Hr.
Defined.

(** C3, as the claim has it, fails: [UserSchema] accepts a decoded body
    with an extra key and returns it without that key, so the value
    [request] resolves to differs from the decoded JSON. *)
Lemma schema_output_differs_from_decoded :
  let response := mkResponse 200 "OK" (Normal userAnaAdmin) in
  let r := request (stubFetch (Resolves response))
             exampleUrl (getConfig "key") UserSchema 0 in
  status response = 200%N /\
  bodyJson response = Normal userAnaAdmin /\
  UserSchema userAnaAdmin = Normal userAna /\
  completion r = Normal userAna /\
  completion r <> Normal userAnaAdmin.
Proof.
  cbv zeta. repeat split; try reflexivity. discriminate.
Qed.

(** The run of [request] for a response below 400 whose body decodes and
    for which the schema throws an [Error] that the dispatch logs. *)
Lemma request_schema_throws fetch url config responseSchema n response decoded e :
  fetch url (withSignal config (SignalOf n)) = Resolves response ->
  (status response < 400)%N ->
  bodyJson response = Normal decoded ->
  responseSchema decoded = Throw (ThrownError e) ->
  objectPrototype !! name e = None ->
  request fetch url config responseSchema n =
    mkRun (Throw (ThrownError e))
      [ENewAbortController n;
       EFetch url (withSignal config (SignalOf n));
       EResponseJson;
       ESchemaParse decoded;
       EConsoleError (labelFor (name e)) (message e) (cause e);
       EAbort n] (S n).
Proof.
  intros Hf Hlt Hbody Hparse Hplain. rewrite request_run.
  rewrite (tryBlock_below_400 _ _ _ _ _ _ _ Hf Hlt), Hbody, Hparse.
  cbv zeta. cbn [completion nextId events].
  rewrite (catchBlock_plain e (S n) Hplain). reflexivity.
Qed.

(** C4, as the code has it: for status 200 and a decoded body for which
    [responseSchema.parse] throws its [ZodError], [request] fails with
    that very error, whose name is [ZodError] (the module has no
    [ValidationError] kind); the error is logged once, by
    [handleUnexpectedError], and neither a [ClientError] nor a
    [ServerError] is constructed. *)
Theorem validation_failure_rethrows_zod_error fetch url config responseSchema n response decoded e :
  fetch url (withSignal config (SignalOf n)) = Resolves response ->
  status response = 200%N ->
  bodyJson response = Normal decoded ->
  responseSchema decoded = Throw (ThrownError e) ->
  name e = "ZodError" ->
  let r := request fetch url config responseSchema n in
  r = mkRun (Throw (ThrownError e))
        [ENewAbortController n;
         EFetch url (withSignal config (SignalOf n));
         EResponseJson;
         ESchemaParse decoded;
         EConsoleError "An unexpected error occurred:" (message e) (cause e);
         EAbort n] (S n) /\
  count isNewError (events r) = 0 /\
  (forall thrown, completion r = Throw (ThrownError thrown) ->
                  name thrown = "ZodError").
Proof.
  intros Hf H200 Hbody Hparse Hname r.
  assert (Hlt : (status response < 400)%N) by (rewrite H200; lia).
  assert (Hplain : objectPrototype !! name e = None) by (rewrite Hname; reflexivity).
  assert (Hlabel : labelFor (name e) = "An unexpected error occurred:")
    by (rewrite Hname; reflexivity).
  assert (Hr : r = mkRun (Throw (ThrownError e))
        [ENewAbortController n;
         EFetch url (withSignal config (SignalOf n));
         EResponseJson;
         ESchemaParse decoded;
         EConsoleError "An unexpected error occurred:" (message e) (cause e);
         EAbort n] (S n)).
  { subst r.
    rewrite (request_schema_throws _ _ _ _ _ _ _ _ Hf Hlt Hbody Hparse Hplain).
    rewrite Hlabel. reflexivity. }
  split; [exact Hr|]. rewrite Hr. split; [reflexivity|].
  cbn [completion]. intros thrown [= <-]. exact Hname.
Qed.

Lemma validation_failure_rethrows_zod_error_witness :
  request (stubFetch (Resolves (mkResponse 200 "OK" (Normal (JString "Ana")))))
    exampleUrl (getConfig "key") UserSchema 0 =
  mkRun (Throw (ThrownError (zodError "Invalid input")))
    [ENewAbortController 0;
     EFetch exampleUrl (withSignal (getConfig "key") (SignalOf 0));
     EResponseJson;
     ESchemaParse (JString "Ana");
     EConsoleError "An unexpected error occurred:" "Invalid input" None;
     EAbort 0] 1.
Proof.
  pose proof (validation_failure_rethrows_zod_error
    (stubFetch (Resolves (mkResponse 200 "OK" (Normal (JString "Ana")))))
    exampleUrl (getConfig "key") UserSchema 0
    (mkResponse 200 "OK" (Normal (JString "Ana"))) (JString "Ana")
    (zodError "Invalid input")
    eq_refl eq_refl eq_refl eq_refl eq_refl) as [Hr _].
  exact Hr.
Defined.

(** C4, as the claim has it, fails: [UserSchema] rejects a decoded body
    that is a string, and the error [request] then fails with is named
    [ZodError], not [ValidationError]. *)
Lemma validation_failure_is_not_a_ValidationError :
  let response := mkResponse 200 "OK" (Normal (JString "Ana")) in
  let r := request (stubFetch (Resolves response))
             exampleUrl (getConfig "key") UserSchema 0 in
  status response = 200%N /\
  bodyJson response = Normal (JString "Ana") /\
  UserSchema (JString "Ana") = Throw (ThrownError (zodError "Invalid input")) /\
  completion r = Throw (ThrownError (zodError "Invalid input")) /\
  name (zodError "Invalid input") = "ZodError" /\
  name (zodError "Invalid input") <> "ValidationError".
Proof.
  cbv zeta. repeat split; try reflexivity. discriminate.
Qed.

(** ** Dispatch and propagation *)

(** C5, as the code has it: when the [try] block throws an [Error] whose
    name is not a property name of [Object.prototype], the error is
    dispatched exactly once, the dispatch returns, a name outside the four
    mapped kinds selects exactly [handleUnexpectedError], and the same
    error is re-thrown; when the [try] block throws a value that is not an
    [Error], that value is re-thrown without being dispatched. *)
Theorem thrown_error_dispatched_once fetch url config responseSchema n t :
  let b := tryBlock fetch url config responseSchema n (S n) in
  let r := request fetch url config responseSchema n in
  completion b = Throw t ->
  match t with
  | ThrownError e =>
      objectPrototype !! name e = None ->
      r = mkRun (Throw (ThrownError e))
            (ENewAbortController n
               :: events b
               ++ [EConsoleError (labelFor (name e)) (message e) (cause e);
                   EAbort n]) (S n) /\
      count isDispatch (events r) = 1 /\
      completion (handleErrors e (S n)) = Normal tt /\
      (name e ∉ mappedKinds ->
       events (handleErrors e (S n)) =
         [EConsoleError "An unexpected error occurred:" (message e) (cause e)])
  | ThrownOther v =>
      r = mkRun (Throw (ThrownOther v))
            (ENewAbortController n :: events b ++ [EAbort n]) (S n) /\
      count isDispatch (events r) = 0
  end.
Proof.
  intros b r Hb.
  destruct (tryBlock_shape fetch url config responseSchema n (S n))
    as (rest & Hev & Hrest & Hid).
  assert (Hrun := request_run fetch url config responseSchema n).
  fold b r in Hev, Hid, Hrun. cbv zeta in Hrun. rewrite Hb, Hid in Hrun.
  assert (Hquiet : count isDispatch (events b) = 0).
  { rewrite Hev. cbn. apply (count_disjoint isAttempt); [|exact Hrest].
    intros []; cbn; congruence. }
  destruct t as [e|v].
  - intros Hplain.
    assert (Hr : r = mkRun (Throw (ThrownError e))
            (ENewAbortController n
               :: events b
               ++ [EConsoleError (labelFor (name e)) (message e) (cause e);
                   EAbort n]) (S n)).
    { rewrite Hrun, (catchBlock_plain e (S n) Hplain). cbn.
      rewrite <- app_assoc. reflexivity. }
    split; [exact Hr|]. split; [|split].
    + rewrite Hr. cbn. rewrite count_app, Hquiet. reflexivity.
    + rewrite (handleErrors_plain e (S n) Hplain). reflexivity.
    + intros Hout. rewrite (handleErrors_plain e (S n) Hplain). cbn.
      rewrite (labelFor_unmapped _ Hout). reflexivity.
  - assert (Hr : r = mkRun (Throw (ThrownOther v))
            (ENewAbortController n :: events b ++ [EAbort n]) (S n)).
    { rewrite Hrun, catchBlock_other. cbn. rewrite app_nil_r. reflexivity. }
    split; [exact Hr|].
    rewrite Hr. cbn. rewrite count_app, Hquiet. reflexivity.
Qed.

Lemma thrown_error_dispatched_once_witness :
  count isDispatch
    (events (request (stubFetch (Rejects (ThrownError fetchFailed)))
               exampleUrl (getConfig "key") UserSchema 0)) = 1.
Proof.
  pose proof (thrown_error_dispatched_once
    (stubFetch (Rejects (ThrownError fetchFailed)))
    exampleUrl (getConfig "key") UserSchema 0 (ThrownError fetchFailed)
    eq_refl eq_refl) as (_ & Hcount & _).
  exact Hcount.
Defined.

(** C5, as the claim has it, fails: a response schema whose refinement
    throws a string makes the [try] block throw during validation; the
    [catch] block does not dispatch it, so the run logs nothing. *)
Lemma non_error_throw_is_not_dispatched :
  let response := mkResponse 200 "OK" (Normal userAna) in
  let b := tryBlock (stubFetch (Resolves response))
             exampleUrl (getConfig "key") throwingSchema 0 1 in
  let r := request (stubFetch (Resolves response))
             exampleUrl (getConfig "key") throwingSchema 0 in
  completion b = Throw (ThrownOther (JString "boom")) /\
  completion r = Throw (ThrownOther (JString "boom")) /\
  count isDispatch (events r) = 0 /\
  count isDispatch (events r) <> 1.
Proof.
  cbv zeta. repeat split; try reflexivity. discriminate.
Qed.

(** ** The cancellation token *)

(** C6: every run of [request] creates exactly one [AbortController] and
    aborts it exactly once, as the last thing it does, whichever way the
    run ends. *)
Theorem controller_created_and_released_once fetch url config responseSchema n :
  let r := request fetch url config responseSchema n in
  count isCreation (events r) = 1 /\
  count isRelease (events r) = 1 /\
  head (events r) = Some (ENewAbortController n) /\
  last (events r) = Some (EAbort n).
Proof.
  intros r. subst r.
  destruct (request_shape fetch url config responseSchema n)
    as (attempt & dispatch & Hev & Hattempt & Hdispatch).
  rewrite Hev.
  assert (Ha : forall q, (forall ev, isAttempt ev = true -> q ev = false) ->
                         count q attempt = 0).
  { intros q Hq. apply (count_disjoint isAttempt); assumption. }
  assert (Hd : forall q, (forall ev, isDispatch ev = true -> q ev = false) ->
                         count q dispatch = 0).
  { intros q Hq. apply (count_disjoint isDispatch); assumption. }
  repeat split.
  - cbn. rewrite !count_app, Ha, Hd; [reflexivity | |]; intros []; cbn; congruence.
  - cbn. rewrite !count_app, Ha, Hd; [reflexivity | |]; intros []; cbn; congruence.
  - change (ENewAbortController n
              :: EFetch url (withSignal config (SignalOf n))
              :: attempt ++ dispatch ++ [EAbort n])
      with (([ENewAbortController n; EFetch url (withSignal config (SignalOf n))]
              ++ attempt ++ dispatch ++ [EAbort n])%list).
    rewrite !app_assoc. apply last_snoc.
Qed.

(** ** Responses that are neither successes nor classified *)

(** C7: a response whose [ok] is false and whose status is below 400
    raises neither a [ClientError] nor a [ServerError]; its body is
    decoded, and the decoded value is validated: the run resolves to what
    the response schema returns for it, or goes through the [catch] block
    with what the schema or the decoder threw.  It is the run of a 200
    response with the same body. *)
Theorem not_ok_below_400_is_decoded_and_validated fetch url config responseSchema n response :
  fetch url (withSignal config (SignalOf n)) = Resolves response ->
  ok response = false ->
  (status response < 400)%N ->
  let r := request fetch url config responseSchema n in
  let init := withSignal config (SignalOf n) in
  let success :=
    {| status := 200; statusText := statusText response;
       bodyJson := bodyJson response |} in
  count isNewError (events r) = 0 /\
  r = request (stubFetch (Resolves success)) url config responseSchema n /\
  r = match bodyJson response with
      | Normal decoded =>
          match responseSchema decoded with
          | Normal validated =>
              mkRun (Normal validated)
                [ENewAbortController n; EFetch url init; EResponseJson;
                 ESchemaParse decoded; EAbort n] (S n)
          | Throw t =>
              caught n [EFetch url init; EResponseJson; ESchemaParse decoded] t
          end
      | Throw t => caught n [EFetch url init; EResponseJson] t
      end.
Proof.
  intros Hf _ Hlt r init success.
  assert (Hs : stubFetch (Resolves success) url init = Resolves success)
    by reflexivity.
  assert (Hslt : (status success < 400)%N) by (cbn; lia).
  assert (Hrun : r = match bodyJson response with
      | Normal decoded =>
          match responseSchema decoded with
          | Normal validated =>
              mkRun (Normal validated)
                [ENewAbortController n; EFetch url init; EResponseJson;
                 ESchemaParse decoded; EAbort n] (S n)
          | Throw t =>
              caught n [EFetch url init; EResponseJson; ESchemaParse decoded] t
          end
      | Throw t => caught n [EFetch url init; EResponseJson] t
      end).
  { subst r init. rewrite request_run, (tryBlock_below_400 _ _ _ _ _ _ _ Hf Hlt).
    destruct (bodyJson response) as [decoded|t]; [|reflexivity].
    destruct (responseSchema decoded) as [validated|t]; reflexivity. }
  assert (Hc : forall t m, count isNewError (events (catchBlock t m)) = 0).
  { intros t m. apply (count_disjoint isDispatch).
    - intros []; cbn; congruence.
    - apply only_catchBlock. }
  split; [|split; [|exact Hrun]].
  - rewrite Hrun.
    destruct (bodyJson response) as [decoded|t];
      [destruct (responseSchema decoded) as [validated|t]|];
      [reflexivity| |]; unfold caught; cbn [events count app isNewError];
      rewrite count_app, Hc; reflexivity.
  - subst r init. rewrite !request_run.
    rewrite (tryBlock_below_400 _ _ _ _ _ _ _ Hf Hlt).
    rewrite (tryBlock_below_400 _ _ _ _ _ _ _ Hs Hslt).
    reflexivity.
Qed.

Lemma not_ok_below_400_is_decoded_and_validated_witness :
  request (stubFetch (Resolves (mkResponse 304 "Not Modified" (Normal userAnaAdmin))))
    exampleUrl (getConfig "key") UserSchema 0 =
  mkRun (Normal userAna)
    [ENewAbortController 0;
     EFetch exampleUrl (withSignal (getConfig "key") (SignalOf 0));
     EResponseJson;
     ESchemaParse userAnaAdmin;
     EAbort 0] 1.
Proof.
  pose proof (not_ok_below_400_is_decoded_and_validated
    (stubFetch (Resolves (mkResponse 304 "Not Modified" (Normal userAnaAdmin))))
    exampleUrl (getConfig "key") UserSchema 0
    (mkResponse 304 "Not Modified" (Normal userAnaAdmin))
    eq_refl eq_refl ltac:(simpl; lia)) as (_ & _ & Hr).
  exact Hr.
Defined.

(** ** Transport failures *)

(** Whatever the transport rejects with, [request] constructs no error of
    its own. *)
Lemma transport_failure_constructs_no_error fetch url config responseSchema n t :
  fetch url (withSignal config (SignalOf n)) = Rejects t ->
  count isNewError (events (request fetch url config responseSchema n)) = 0.
Proof.
  intros Hf. rewrite request_run, (tryBlock_rejects _ _ _ _ _ _ _ Hf).
  cbn. rewrite count_app. cbn. rewrite Nat.add_0_r.
  apply (count_disjoint isDispatch).
  - intros []; cbn; congruence.
  - apply only_catchBlock.
Qed.

(** C8: when the transport rejects with an [Error] whose name is none of
    the four mapped kinds (nor a property name of [Object.prototype]),
    [request] logs it through [handleUnexpectedError] and re-throws it
    unchanged; no error is constructed, so no [NetworkError] is. *)
Theorem transport_failure_goes_to_default fetch url config responseSchema n e :
  fetch url (withSignal config (SignalOf n)) = Rejects (ThrownError e) ->
  name e ∉ mappedKinds ->
  objectPrototype !! name e = None ->
  let r := request fetch url config responseSchema n in
  r = mkRun (Throw (ThrownError e))
        [ENewAbortController n;
         EFetch url (withSignal config (SignalOf n));
         EConsoleError "An unexpected error occurred:" (message e) (cause e);
         EAbort n] (S n) /\
  count isNewError (events r) = 0.
Proof.
  intros Hf Hout Hplain r. split.
  - subst r. rewrite request_run, (tryBlock_rejects _ _ _ _ _ _ _ Hf).
    cbv zeta. cbn [completion events nextId].
    rewrite (catchBlock_plain e (S n) Hplain), (labelFor_unmapped _ Hout).
    reflexivity.
  - apply (transport_failure_constructs_no_error _ _ _ _ _ _ Hf).
Qed.

Lemma transport_failure_goes_to_default_witness :
  request (stubFetch (Rejects (ThrownError fetchFailed)))
    exampleUrl (getConfig "key") UserSchema 0 =
  mkRun (Throw (ThrownError fetchFailed))
    [ENewAbortController 0;
     EFetch exampleUrl (withSignal (getConfig "key") (SignalOf 0));
     EConsoleError "An unexpected error occurred:" "fetch failed" None;
     EAbort 0] 1.
Proof.
  pose proof (transport_failure_goes_to_default
    (stubFetch (Rejects (ThrownError fetchFailed)))
    exampleUrl (getConfig "key") UserSchema 0 fetchFailed
    eq_refl ltac:(compute_done) eq_refl) as [Hr _].
  exact Hr.
Defined.

(** ** The wrappers *)

Lemma _get_unfold fetch url responseSchema apiKey :
  _get fetch url responseSchema apiKey =
  request fetch url (getConfig apiKey) responseSchema.
Proof. reflexivity. Qed.

(** A body-carrying wrapper whose query schema accepts the query calls
    [request] with the configuration of its verb. *)
Lemma withBody_accepted fetch verb url querySchema query responseSchema n parsed :
  querySchema query = Normal parsed ->
  withBody fetch verb url querySchema query responseSchema n =
    let r := request fetch url (bodyConfig verb parsed) responseSchema n in
    mkRun (completion r) (ESchemaParse query :: events r) (nextId r).
Proof.
  intros Hq. unfold withBody, parse, lift, bind, emit. cbn.
  rewrite Hq. reflexivity.
Qed.

(** A body-carrying wrapper whose query schema throws stops there. *)
Lemma withBody_rejected fetch verb url querySchema query responseSchema n t :
  querySchema query = Throw t ->
  withBody fetch verb url querySchema query responseSchema n =
    mkRun (Throw t) [ESchemaParse query] n.
Proof.
  intros Hq. unfold withBody, parse, lift, bind, emit. cbn.
  rewrite Hq. reflexivity.
Qed.

Lemma _post_withBody fetch : _post fetch = withBody fetch POST.
Proof. reflexivity. Qed.

Lemma _put_withBody fetch : _put fetch = withBody fetch PUT.
Proof. reflexivity. Qed.

Lemma _patch_withBody fetch : _patch fetch = withBody fetch PATCH.
Proof. reflexivity. Qed.

Lemma _delete_withBody fetch : _delete fetch = withBody fetch DELETE.
Proof. reflexivity. Qed.

Lemma request_callsWith fetch url config responseSchema n :
  callsWith (request fetch url config responseSchema n) url config n.
Proof.
  destruct (request_shape fetch url config responseSchema n)
    as (attempt & dispatch & Hev & Hattempt & Hdispatch).
  unfold callsWith. rewrite Hev. split.
  - cbn. rewrite !count_app.
    rewrite (count_disjoint isAttempt isFetch attempt),
            (count_disjoint isDispatch isFetch dispatch);
      [reflexivity | | assumption | | assumption]; intros []; cbn; congruence.
  - intros u init Hin.
    rewrite !elem_of_cons, !elem_of_app in Hin.
    rewrite Forall_forall in Hattempt. rewrite Forall_forall in Hdispatch.
    destruct Hin as [Hin|[Hin|[Hin|[Hin|Hin]]]].
    + discriminate.
    + injection Hin as -> ->. auto.
    + apply Hattempt in Hin. discriminate.
    + apply Hdispatch in Hin. discriminate.
    + apply list_elem_of_singleton in Hin. discriminate.
Qed.

(** The network calls of a body-carrying wrapper: none when the query
    schema throws, otherwise the one of [request] with the configuration of
    the verb. *)
Lemma withBody_fetch_event fetch verb url querySchema query responseSchema n u init :
  EFetch u init ∈ events (withBody fetch verb url querySchema query responseSchema n) ->
  exists parsed,
    querySchema query = Normal parsed /\
    u = url /\
    init = withSignal (bodyConfig verb parsed) (SignalOf n).
Proof.
  destruct (querySchema query) as [parsed|t] eqn:Hq.
  - rewrite (withBody_accepted _ _ _ _ _ _ _ _ Hq). cbv zeta. cbn [events].
    intros Hin. apply elem_of_cons in Hin as [Hin|Hin]; [discriminate|].
    destruct (request_callsWith fetch url (bodyConfig verb parsed) responseSchema n)
      as [_ Hmem].
    destruct (Hmem u init Hin) as [-> ->]. exists parsed. auto.
  - rewrite (withBody_rejected _ _ _ _ _ _ _ _ Hq). cbn [events].
    intros Hin. apply list_elem_of_singleton in Hin. discriminate.
Qed.

Lemma withBody_fetch_count fetch verb url querySchema query responseSchema n :
  count isFetch (events (withBody fetch verb url querySchema query responseSchema n)) <= 1.
Proof.
  destruct (querySchema query) as [parsed|t] eqn:Hq.
  - rewrite (withBody_accepted _ _ _ _ _ _ _ _ Hq). cbv zeta. cbn [events].
    destruct (request_callsWith fetch url (bodyConfig verb parsed) responseSchema n)
      as [Hcount _].
    cbn [count isFetch]. rewrite Hcount. lia.
  - rewrite (withBody_rejected _ _ _ _ _ _ _ _ Hq). cbn. lia.
Qed.

Lemma withBody_cache_mode fetch verb url querySchema query responseSchema n u init :
  EFetch u init ∈ events (withBody fetch verb url querySchema query responseSchema n) ->
  cache init = None.
Proof.
  intros Hin. apply withBody_fetch_event in Hin as (parsed & _ & _ & ->).
  reflexivity.
Qed.

(** C9, as the code has it: [request] issues the network call with the
    caller's configuration, to which it adds only its signal, so the cache
    mode of the call is the caller's; the one call of [_get] has cache
    mode [no-store], and a call of [_post], [_put], [_patch] or [_delete]
    has no cache mode. *)
Theorem fetch_cache_mode_by_caller
    fetch url config responseSchema querySchema query apiKey n u init :
  (EFetch u init ∈ events (request fetch url config responseSchema n) ->
   init = withSignal config (SignalOf n) /\ cache init = cache config) /\
  (count isFetch (events (_get fetch url responseSchema apiKey n)) = 1 /\
   (EFetch u init ∈ events (_get fetch url responseSchema apiKey n) ->
    cache init = Some cache_no_store)) /\
  (EFetch u init ∈ events (_post fetch url querySchema query responseSchema n) ->
   cache init = None) /\
  (EFetch u init ∈ events (_put fetch url querySchema query responseSchema n) ->
   cache init = None) /\
  (EFetch u init ∈ events (_patch fetch url querySchema query responseSchema n) ->
   cache init = None) /\
  (EFetch u init ∈ events (_delete fetch url querySchema query responseSchema n) ->
   cache init = None).
Proof.
  split; [|split].
  - intros Hin.
    destruct (request_callsWith fetch url config responseSchema n) as [_ Hmem].
    destruct (Hmem u init Hin) as [_ ->]. split; reflexivity.
  - rewrite _get_unfold.
    destruct (request_callsWith fetch url (getConfig apiKey) responseSchema n)
      as [Hcount Hmem].
    split; [exact Hcount|].
    intros Hin. destruct (Hmem u init Hin) as [_ ->]. reflexivity.
  - rewrite _post_withBody, _put_withBody, _patch_withBody, _delete_withBody.
    split; [|split; [|split]]; apply withBody_cache_mode.
Qed.

Lemma fetch_cache_mode_by_caller_witness :
  cache (withSignal (getConfig "key") (SignalOf 0)) = Some cache_no_store /\
  cache (withSignal (bodyConfig DELETE userAna) (SignalOf 0)) = None.
Proof.
  pose proof (fetch_cache_mode_by_caller
    (stubFetch (Resolves (mkResponse 200 "OK" (Normal userAna))))
    exampleUrl (getConfig "key") UserSchema UserSchema userAnaAdmin "key" 0
    exampleUrl (withSignal (getConfig "key") (SignalOf 0)))
    as (_ & (_ & Hget) & _).
  pose proof (fetch_cache_mode_by_caller
    (stubFetch (Resolves (mkResponse 200 "OK" (Normal userAna))))
    exampleUrl (getConfig "key") UserSchema UserSchema userAnaAdmin "key" 0
    exampleUrl (withSignal (bodyConfig DELETE userAna) (SignalOf 0)))
    as (_ & _ & _ & _ & _ & Hdelete).
  split.
  - apply Hget. vm_compute. apply list_elem_of_further, list_elem_of_here.
  - apply Hdelete. vm_compute. do 2 apply list_elem_of_further. apply list_elem_of_here.
Defined.

(** C9, as the claim has it, fails: the network call [_post] issues
    carries no cache mode. *)
Lemma post_fetch_has_no_cache_mode :
  let init := withSignal (bodyConfig POST userAna) (SignalOf 0) in
  let r := _post (stubFetch (Resolves (mkResponse 200 "OK" (Normal userAna))))
             exampleUrl UserSchema userAna UserSchema 0 in
  EFetch exampleUrl init ∈ events r /\
  cache init = None /\
  cache init <> Some cache_no_store.
Proof.
  cbv zeta. split.
  - vm_compute. do 2 apply list_elem_of_further. apply list_elem_of_here.
  - split; [reflexivity | discriminate].
Qed.

(** C10: when the query schema of [_post], [_put], [_patch] or [_delete]
    throws, the wrapper fails with that very value before [request] is
    entered: no network call, no controller, no dispatch. *)
Theorem query_failure_precedes_request fetch url querySchema query responseSchema n t :
  querySchema query = Throw t ->
  rejectedBeforeRequest (_post fetch url querySchema query responseSchema n) t /\
  rejectedBeforeRequest (_put fetch url querySchema query responseSchema n) t /\
  rejectedBeforeRequest (_patch fetch url querySchema query responseSchema n) t /\
  rejectedBeforeRequest (_delete fetch url querySchema query responseSchema n) t.
Proof.
  intros Hq.
  rewrite _post_withBody, _put_withBody, _patch_withBody, _delete_withBody.
  rewrite !(withBody_rejected _ _ _ _ _ _ _ _ Hq).
  repeat split.
Qed.

Lemma query_failure_precedes_request_witness :
  rejectedBeforeRequest
    (_post (stubFetch (Resolves (mkResponse 200 "OK" (Normal userAna))))
       exampleUrl UserSchema (JString "Ana") UserSchema 0)
    (ThrownError (zodError "Invalid input")).
Proof.
  pose proof (query_failure_precedes_request
    (stubFetch (Resolves (mkResponse 200 "OK" (Normal userAna))))
    exampleUrl UserSchema (JString "Ana") UserSchema 0
    (ThrownError (zodError "Invalid input")) eq_refl) as [Hpost _].
  exact Hpost.
Defined.

(** ** The paths of [request] *)

(** The [catch] block never completes normally, logs at most one line, and
    allocates nothing. *)
Lemma catchBlock_run t m :
  exists t' log,
    catchBlock t m = mkRun (Throw t') log m /\
    Forall (fun ev => isDispatch ev = true) log /\
    length log <= 1.
Proof.
  destruct t as [e|v].
  - unfold catchBlock, bind, handleErrors, call.
    destruct (jsGet errorHandlers (name e)) as [[f|]|];
      [destruct f | |]; cbn; eexists _, _;
      (split; [reflexivity|]); split; repeat constructor.
  - exists (ThrownOther v), []. rewrite catchBlock_other.
    split; [reflexivity|]. split; [constructor | cbn; lia].
Qed.

Lemma caught_run n attempt t :
  exists t' log,
    caught n attempt t =
      mkRun (Throw t')
        (ENewAbortController n :: (attempt ++ log) ++ [EAbort n]) (S n) /\
    Forall (fun ev => isDispatch ev = true) log /\
    length log <= 1.
Proof.
  destruct (catchBlock_run t (S n)) as (t' & log & Hrun & Hlog & Hlen).
  exists t', log. unfold caught. rewrite Hrun. auto.
Qed.

(** Every run of [request] takes one of the six paths. *)
Lemma request_path fetch url config responseSchema n :
  Path fetch url config responseSchema n
    (request fetch url config responseSchema n).
Proof.
  rewrite request_run.
  destruct (fetch url (withSignal config (SignalOf n))) as [response|t] eqn:Hf.
  - destruct (N.lt_ge_cases (status response) 400) as [Hlt|Hge].
    + rewrite (tryBlock_below_400 _ _ _ _ _ _ _ Hf Hlt).
      destruct (bodyJson response) as [decoded|t] eqn:Hbody.
      * destruct (responseSchema decoded) as [validated|t] eqn:Hparse;
          cbv zeta; cbn [completion events nextId].
        -- eapply PathResolved; eassumption.
        -- eapply (PathInvalid _ _ _ _ _ response decoded t); eassumption.
      * cbv zeta; cbn [completion events nextId].
        eapply (PathUndecodable _ _ _ _ _ response t); eassumption.
    + destruct (N.lt_ge_cases (status response) 500) as [Hlt|Hge'].
      * rewrite (tryBlock_client _ _ _ _ _ _ _ Hf Hge Hlt).
        cbv zeta; cbn [completion events nextId].
        apply (PathClient _ _ _ _ _ response Hf Hge Hlt).
      * rewrite (tryBlock_server _ _ _ _ _ _ _ Hf Hge').
        cbv zeta; cbn [completion events nextId].
        apply (PathServer _ _ _ _ _ response Hf Hge').
  - rewrite (tryBlock_rejects _ _ _ _ _ _ _ Hf).
    cbv zeta; cbn [completion events nextId].
    apply (PathRejected _ _ _ _ _ t Hf).
Qed.

(** Counting over the events of a path that went through the [catch]
    block. *)
Lemma count_caught p n attempt log :
  count p (ENewAbortController n :: (attempt ++ log) ++ [EAbort n]) =
  (if p (ENewAbortController n) then 1 else 0)
  + count p attempt + count p log + (if p (EAbort n) then 1 else 0).
Proof. cbn. rewrite !count_app. cbn. lia. Qed.

Lemma count_le_length p l : count p l <= length l.
Proof.
  induction l as [|ev l IH]; cbn; [lia|]. destruct (p ev); lia.
Qed.

Lemma count_all p l :
  Forall (fun ev => p ev = true) l -> count p l = length l.
Proof.
  induction 1 as [|ev l Hev _ IH]; cbn; [reflexivity|].
  rewrite Hev, IH. reflexivity.
Qed.

(** ** What every run of [request] does *)

(** X1: whichever path it takes, [request] issues exactly one network
    call, right after creating its controller, with the caller's
    configuration and the signal of that controller. *)
Theorem request_issues_one_network_call fetch url config responseSchema n :
  let r := request fetch url config responseSchema n in
  count isFetch (events r) = 1 /\
  events r !! 1 = Some (EFetch url (withSignal config (SignalOf n))).
Proof.
  intros r. subst r.
  destruct (request_shape fetch url config responseSchema n)
    as (attempt & dispatch & Hev & Hattempt & Hdispatch).
  rewrite Hev. split; [|reflexivity].
  cbn. rewrite !count_app.
  rewrite (count_disjoint isAttempt isFetch attempt),
          (count_disjoint isDispatch isFetch dispatch);
    [reflexivity | | assumption | | assumption]; intros []; cbn; congruence.
Qed.

(** X2: a run of [request] writes at most one line to the console, and
    none when it resolves. *)
Theorem request_logs_at_most_once fetch url config responseSchema n :
  let r := request fetch url config responseSchema n in
  count isDispatch (events r) <= 1 /\
  (forall v, completion r = Normal v -> count isDispatch (events r) = 0).
Proof.
  intros r. subst r.
  destruct (request_path fetch url config responseSchema n);
    try (match goal with
         | |- context [caught ?n ?attempt ?t] =>
             destruct (caught_run n attempt t) as (t' & log & -> & Hlog & Hlen)
         end;
         cbn [completion events]; rewrite count_caught; cbn;
         pose proof (count_le_length isDispatch log);
         split; [lia | discriminate]).
  cbn. split; [lia | reflexivity].
Qed.

(** X3: [request] resolves to a value only if the transport resolved to a
    response below 400 whose body decoded and the response schema returned
    that value for it; the run then consists of the creation, the call, the
    decoding, the validation and the release. *)
Theorem request_resolves_only_validated fetch url config responseSchema n v :
  let r := request fetch url config responseSchema n in
  completion r = Normal v ->
  exists response decoded,
    fetch url (withSignal config (SignalOf n)) = Resolves response /\
    (status response < 400)%N /\
    bodyJson response = Normal decoded /\
    responseSchema decoded = Normal v /\
    events r =
      [ENewAbortController n;
       EFetch url (withSignal config (SignalOf n));
       EResponseJson;
       ESchemaParse decoded;
       EAbort n].
Proof.
  intros r. subst r.
  destruct (request_path fetch url config responseSchema n);
    try (match goal with
         | |- context [caught ?n ?attempt ?t] =>
             destruct (caught_run n attempt t) as (t' & log & -> & _ & _)
         end; cbn [completion]; discriminate).
  cbn [completion events]. intros [= <-].
  exists response, decoded. auto.
Qed.

Lemma request_resolves_only_validated_witness :
  exists response decoded,
    stubFetch (Resolves (mkResponse 200 "OK" (Normal userAnaAdmin)))
      exampleUrl (withSignal (getConfig "key") (SignalOf 0)) = Resolves response /\
    (status response < 400)%N /\
    bodyJson response = Normal decoded /\
    UserSchema decoded = Normal userAna /\
    events (request (stubFetch (Resolves (mkResponse 200 "OK" (Normal userAnaAdmin))))
              exampleUrl (getConfig "key") UserSchema 0) =
      [ENewAbortController 0;
       EFetch exampleUrl (withSignal (getConfig "key") (SignalOf 0));
       EResponseJson;
       ESchemaParse decoded;
       EAbort 0].
Proof.
  apply (request_resolves_only_validated
    (stubFetch (Resolves (mkResponse 200 "OK" (Normal userAnaAdmin))))
    exampleUrl (getConfig "key") UserSchema 0 userAna eq_refl).
Defined.

(** X4: for a response the transport resolved to, [request] constructs an
    error exactly when the status is at least 400, and calls [json()]
    exactly when it is below 400. *)
Theorem request_classifies_by_status fetch url config responseSchema n response :
  fetch url (withSignal config (SignalOf n)) = Resolves response ->
  let r := request fetch url config responseSchema n in
  count isNewError (events r) = (if (400 <=? status response)%N then 1 else 0) /\
  count isJsonCall (events r) = (if (400 <=? status response)%N then 0 else 1).
Proof.
  intros Hf r. subst r.
  assert (Hd : forall q log, (forall ev, isDispatch ev = true -> q ev = false) ->
             Forall (fun ev => isDispatch ev = true) log -> count q log = 0).
  { intros q log Hq Hlog. apply (count_disjoint isDispatch); assumption. }
  destruct (request_path fetch url config responseSchema n) as
    [t Hf'|response' Hf' Hlo Hhi error|response' Hf' Hlo error
    |response' t Hf' Hlt Hbody|response' decoded t Hf' Hlt Hbody Hparse
    |response' decoded validated Hf' Hlt Hbody Hparse];
    rewrite Hf in Hf'; try discriminate; injection Hf' as <-;
    try (match goal with
         | |- context [caught ?n ?attempt ?t] =>
             destruct (caught_run n attempt t) as (t' & log & -> & Hlog & _)
         end;
         cbn [events]; rewrite !count_caught;
         rewrite !(Hd _ log) by (assumption || (intros []; cbn; congruence)));
    cbn.
  - replace (400 <=? status response)%N with true
      by (symmetry; apply N.leb_le; lia). split; reflexivity.
  - replace (400 <=? status response)%N with true
      by (symmetry; apply N.leb_le; lia). split; reflexivity.
  - replace (400 <=? status response)%N with false
      by (symmetry; apply N.leb_gt; lia). split; reflexivity.
  - replace (400 <=? status response)%N with false
      by (symmetry; apply N.leb_gt; lia). split; reflexivity.
  - replace (400 <=? status response)%N with false
      by (symmetry; apply N.leb_gt; lia). split; reflexivity.
Qed.

Lemma request_classifies_by_status_witness :
  count isNewError
    (events (request (stubFetch (Resolves (mkResponse 503 "Service Unavailable" (Normal JNull))))
               exampleUrl (getConfig "key") UserSchema 0)) = 1.
Proof.
  pose proof (request_classifies_by_status
    (stubFetch (Resolves (mkResponse 503 "Service Unavailable" (Normal JNull))))
    exampleUrl (getConfig "key") UserSchema 0
    (mkResponse 503 "Service Unavailable" (Normal JNull)) eq_refl) as [Hnew _].
  exact Hnew.
Defined.

(** X5: every error [request] constructs is a [ClientError] for a status in
    [400,500) or a [ServerError] for a status of at least 500, with the
    status line of the response as message and no cause; [request] never
    constructs a [NetworkError]. *)
Theorem constructed_error_is_client_or_server fetch url config responseSchema n e :
  ENewError e ∈ events (request fetch url config responseSchema n) ->
  (exists response,
     fetch url (withSignal config (SignalOf n)) = Resolves response /\
     message e = statusLine response /\
     cause e = None /\
     ((name e = "ClientError" /\ (400 <= status response < 500)%N) \/
      (name e = "ServerError" /\ (500 <= status response)%N))) /\
  name e <> "NetworkError".
Proof.
  intros Hin.
  assert (Hlog : forall log, Forall (fun ev => isDispatch ev = true) log ->
                             ENewError e ∉ log).
  { intros log Hlog Hemem. rewrite Forall_forall in Hlog.
    apply Hlog in Hemem. discriminate. }
  destruct (request_path fetch url config responseSchema n) as
    [t Hf|response Hf Hlo Hhi error|response Hf Hlo error
    |response t Hf Hlt Hbody|response decoded t Hf Hlt Hbody Hparse
    |response decoded validated Hf Hlt Hbody Hparse];
    try (match type of Hin with
         | context [caught ?n ?attempt ?t] =>
             destruct (caught_run n attempt t) as (t' & log & Hrun & Hdis & _);
             rewrite Hrun in Hin; cbn [events] in Hin;
             specialize (Hlog log Hdis)
         end);
    cbn [events] in Hin;
    rewrite ?elem_of_cons, ?elem_of_app, ?elem_of_cons in Hin;
    repeat match goal with
           | H : _ \/ _ |- _ => destruct H
           | H : ENewError _ = _ |- _ => try discriminate H
           | H : _ ∈ [] |- _ => inversion H
           | H : ENewError e ∈ ?l, H' : ENewError e ∉ ?l |- _ => destruct (H' H)
           end.
  - match goal with H : ENewError e = ENewError _ |- _ => injection H as -> end.
    split; [|discriminate].
    exists response. subst error. cbn. split; [assumption|].
    repeat split. left. split; [reflexivity | lia].
  - match goal with H : ENewError e = ENewError _ |- _ => injection H as -> end.
    split; [|discriminate].
    exists response. subst error. cbn. split; [assumption|].
    repeat split. right. split; [reflexivity | lia].
Qed.

Lemma constructed_error_is_client_or_server_witness :
  let e := {| name := "ClientError"; message := "404: Not Found"; cause := None |} in
  let response := mkResponse 404 "Not Found" (Normal JNull) in
  exists response',
    stubFetch (Resolves response) exampleUrl
      (withSignal (getConfig "key") (SignalOf 0)) = Resolves response' /\
    message e = statusLine response' /\
    cause e = None /\
    ((name e = "ClientError" /\ (400 <= status response' < 500)%N) \/
     (name e = "ServerError" /\ (500 <= status response')%N)).
Proof.
  pose proof (constructed_error_is_client_or_server
    (stubFetch (Resolves (mkResponse 404 "Not Found" (Normal JNull))))
    exampleUrl (getConfig "key") anySchema 0
    {| name := "ClientError"; message := "404: Not Found"; cause := None |}
    ltac:(vm_compute; do 2 apply list_elem_of_further; apply list_elem_of_here))
    as [Hex _].
  exact Hex.
Defined.

(** X6: the response schema is applied at most once, and only to the
    decoded body of a response below 400. *)
Theorem schema_sees_only_decoded_body fetch url config responseSchema n :
  let r := request fetch url config responseSchema n in
  count isParseCall (events r) <= 1 /\
  forall input, ESchemaParse input ∈ events r ->
    exists response,
      fetch url (withSignal config (SignalOf n)) = Resolves response /\
      (status response < 400)%N /\
      bodyJson response = Normal input.
Proof.
  intros r. subst r.
  assert (Hd : forall log, Forall (fun ev => isDispatch ev = true) log ->
                           count isParseCall log = 0).
  { intros log Hlog. apply (count_disjoint isDispatch); [|assumption].
    intros []; cbn; congruence. }
  assert (Hm : forall input log, Forall (fun ev => isDispatch ev = true) log ->
                                 ESchemaParse input ∉ log).
  { intros input log Hlog Hemem. rewrite Forall_forall in Hlog.
    apply Hlog in Hemem. discriminate. }
  destruct (request_path fetch url config responseSchema n) as
    [t Hf|response Hf Hlo Hhi error|response Hf Hlo error
    |response t Hf Hlt Hbody|response decoded t Hf Hlt Hbody Hparse
    |response decoded validated Hf Hlt Hbody Hparse];
    try (match goal with
         | |- context [caught ?n ?attempt ?t] =>
             destruct (caught_run n attempt t) as (t' & log & -> & Hdis & _)
         end;
         cbn [events]; rewrite count_caught, (Hd log Hdis));
    (split; [cbn; lia|]);
    intros input Hin; cbn [events] in Hin;
    rewrite ?elem_of_cons, ?elem_of_app, ?elem_of_cons in Hin;
    repeat match goal with
           | H : _ \/ _ |- _ => destruct H
           | H : ESchemaParse _ = _ |- _ => try discriminate H
           | H : _ ∈ [] |- _ => inversion H
           | H : ESchemaParse input ∈ ?l, H' : Forall _ ?l |- _ =>
               destruct (Hm input l H' H)
           end;
    match goal with H : ESchemaParse input = ESchemaParse _ |- _ =>
      injection H as ->
    end;
    exists response; auto.
Qed.

(** X7: when [json()] throws for a response below 400, the response schema
    is not applied; the decoder's error is logged once and re-thrown. *)
Theorem decode_failure_skips_validation fetch url config responseSchema n response e :
  fetch url (withSignal config (SignalOf n)) = Resolves response ->
  (status response < 400)%N ->
  bodyJson response = Throw (ThrownError e) ->
  objectPrototype !! name e = None ->
  let r := request fetch url config responseSchema n in
  r = mkRun (Throw (ThrownError e))
        [ENewAbortController n;
         EFetch url (withSignal config (SignalOf n));
         EResponseJson;
         EConsoleError (labelFor (name e)) (message e) (cause e);
         EAbort n] (S n) /\
  count isParseCall (events r) = 0.
Proof.
  intros Hf Hlt Hbody Hplain r.
  assert (Hr : r = mkRun (Throw (ThrownError e))
        [ENewAbortController n;
         EFetch url (withSignal config (SignalOf n));
         EResponseJson;
         EConsoleError (labelFor (name e)) (message e) (cause e);
         EAbort n] (S n)).
  { subst r. rewrite request_run.
    rewrite (tryBlock_below_400 _ _ _ _ _ _ _ Hf Hlt), Hbody.
    cbv zeta. cbn [completion nextId events].
    rewrite (catchBlock_plain e (S n) Hplain). reflexivity. }
  rewrite Hr. split; reflexivity.
Qed.

Lemma decode_failure_skips_validation_witness :
  request (stubFetch (Resolves (mkResponse 200 "OK" (Throw (ThrownError syntaxError)))))
    exampleUrl (getConfig "key") UserSchema 0 =
  mkRun (Throw (ThrownError syntaxError))
    [ENewAbortController 0;
     EFetch exampleUrl (withSignal (getConfig "key") (SignalOf 0));
     EResponseJson;
     EConsoleError "An unexpected error occurred:"
       "Unexpected end of JSON input" None;
     EAbort 0] 1.
Proof.
  pose proof (decode_failure_skips_validation
    (stubFetch (Resolves (mkResponse 200 "OK" (Throw (ThrownError syntaxError)))))
    exampleUrl (getConfig "key") UserSchema 0
    (mkResponse 200 "OK" (Throw (ThrownError syntaxError))) syntaxError
    eq_refl ltac:(simpl; lia) eq_refl eq_refl) as [Hr _].
  exact Hr.
Defined.

(** When [handleErrors] throws, it has logged nothing. *)
Lemma handleErrors_throw_silent e m t' :
  completion (handleErrors e m) = Throw t' ->
  handleErrors e m = mkRun (Throw t') [] m.
Proof.
  unfold handleErrors, call.
  destruct (jsGet errorHandlers (name e)) as [[f|]|];
    [destruct f | |]; cbn; intros H; try discriminate H;
    injection H as <-; reflexivity.
Qed.

(** X8: when the [try] block throws an [Error] and the dispatch of that
    error throws in turn, the caller receives what the dispatch threw, not
    the original error; nothing is logged, and the controller is still
    released last. *)
Theorem dispatch_failure_replaces_error fetch url config responseSchema n e t' :
  let b := tryBlock fetch url config responseSchema n (S n) in
  let r := request fetch url config responseSchema n in
  completion b = Throw (ThrownError e) ->
  completion (handleErrors e (S n)) = Throw t' ->
  r = mkRun (Throw t') (ENewAbortController n :: events b ++ [EAbort n]) (S n) /\
  count isDispatch (events r) = 0 /\
  last (events r) = Some (EAbort n).
Proof.
  intros b r Hb Hh.
  destruct (tryBlock_shape fetch url config responseSchema n (S n))
    as (rest & Hev & Hrest & Hid).
  assert (Hrun := request_run fetch url config responseSchema n).
  fold b r in Hev, Hid, Hrun. cbv zeta in Hrun. rewrite Hb, Hid in Hrun.
  assert (Hc : catchBlock (ThrownError e) (S n) = mkRun (Throw t') [] (S n)).
  { unfold catchBlock, bind.
    rewrite (handleErrors_throw_silent e (S n) t' Hh). reflexivity. }
  rewrite Hc in Hrun. cbn [completion events nextId] in Hrun.
  rewrite app_nil_r in Hrun.
  split; [exact Hrun|]. rewrite Hrun. cbn [events]. split.
  - cbn. rewrite count_app, Hev. cbn.
    rewrite (count_disjoint isAttempt isDispatch rest); [reflexivity| |assumption].
    intros []; cbn; congruence.
  - rewrite app_comm_cons. apply last_snoc.
Qed.

Lemma dispatch_failure_replaces_error_witness :
  request (stubFetch (Rejects (ThrownError protoNamedError)))
    exampleUrl (getConfig "key") UserSchema 0 =
  mkRun (Throw (engineTypeError "errorHandler is not a function"))
    [ENewAbortController 0;
     EFetch exampleUrl (withSignal (getConfig "key") (SignalOf 0));
     EAbort 0] 1.
Proof.
  pose proof (dispatch_failure_replaces_error
    (stubFetch (Rejects (ThrownError protoNamedError)))
    exampleUrl (getConfig "key") UserSchema 0 protoNamedError
    (engineTypeError "errorHandler is not a function")
    eq_refl eq_refl) as [Hr _].
  exact Hr.
Defined.

(** ** The dispatch table *)

(** X9: an error named after one of the four mapped kinds is logged once,
    with its own message and cause, under the label of its kind; that
    label is not the default one, and no two kinds share a label. *)
Theorem handleErrors_mapped_kinds e n :
  name e ∈ mappedKinds ->
  handleErrors e n =
    mkRun (Normal tt)
      [EConsoleError (labelFor (name e)) (message e) (cause e)] n /\
  labelFor (name e) <> "An unexpected error occurred:" /\
  (forall kind, kind ∈ mappedKinds ->
                labelFor kind = labelFor (name e) -> kind = name e).
Proof.
  destruct e as [kind msg why]. cbn [name message cause].
  unfold mappedKinds. intros Hin.
  repeat (apply elem_of_cons in Hin as [->|Hin]); [| | | |inversion Hin];
    (split; [reflexivity|]); (split; [discriminate|]);
    intros kind' Hin';
    repeat (apply elem_of_cons in Hin' as [->|Hin']);
    try (inversion Hin'); vm_compute; congruence.
Qed.

Lemma handleErrors_mapped_kinds_witness :
  handleErrors {| name := "AbortError"; message := "The operation was aborted";
                  cause := None |} 0 =
  mkRun (Normal tt)
    [EConsoleError "Request was aborted:" "The operation was aborted" None] 0.
Proof.
  pose proof (handleErrors_mapped_kinds
    {| name := "AbortError"; message := "The operation was aborted"; cause := None |}
    0 ltac:(compute_done)) as [Hr _].
  exact Hr.
Defined.

(** X10: an error named after a property of [Object.prototype] is never
    logged by [handleErrors]; the call returns for [constructor] and
    [toString] and throws a [TypeError] for every other such name. *)
Theorem handleErrors_inherited_names e n :
  is_Some (objectPrototype !! name e) ->
  events (handleErrors e n) = [] /\
  (completion (handleErrors e n) = Normal tt <-> name e ∈ returningMembers) /\
  (name e ∉ returningMembers ->
   exists msg, completion (handleErrors e n) = Throw (engineTypeError msg)).
Proof.
  destruct e as [kind msg why]. cbn [name]. intros [v Hv].
  unfold objectPrototype in Hv. apply elem_of_list_to_map_2 in Hv.
  repeat (apply elem_of_cons in Hv as [[= -> ->]|Hv]); [..|inversion Hv];
    (split; [reflexivity|]); split;
    try (split; [intros _; compute_done | intros _; reflexivity]);
    try (split; [intros H; discriminate H | intros H; exfalso; revert H; compute_done]);
    try (intros H; exfalso; apply H; compute_done);
    intros _; eexists; reflexivity.
Qed.

Lemma handleErrors_inherited_names_witness :
  events (handleErrors {| name := "hasOwnProperty"; message := "boom"; cause := None |} 0)
    = [].
Proof.
  pose proof (handleErrors_inherited_names
    {| name := "hasOwnProperty"; message := "boom"; cause := None |} 0
    ltac:(vm_compute; eexists; reflexivity)) as [Hr _].
  exact Hr.
Defined.

(** ** The wrappers, from the transport's side *)

(** X11: [_get] issues exactly one network call: a GET to the given
    address with cache mode [no-store], the API key as the only header, no
    body, and the signal of the controller of this call. *)
Theorem get_issues_one_keyed_call fetch url responseSchema apiKey n :
  callsWith (_get fetch url responseSchema apiKey n) url
    {| method := Some GET;
       cache := Some cache_no_store;
       headers := [("X-API-KEY", apiKey)];
       body := None;
       signal := None |} n.
Proof. rewrite _get_unfold. apply request_callsWith. Qed.

Lemma withBody_wrapperCall fetch verb url querySchema query responseSchema n :
  wrapperCall (withBody fetch verb url querySchema query responseSchema n)
    verb url querySchema query n.
Proof.
  unfold wrapperCall. split; [|split].
  - destruct (querySchema query) as [parsed|t] eqn:Hq.
    + rewrite (withBody_accepted _ _ _ _ _ _ _ _ Hq). reflexivity.
    + rewrite (withBody_rejected _ _ _ _ _ _ _ _ Hq). reflexivity.
  - apply withBody_fetch_count.
  - intros u init Hin.
    apply withBody_fetch_event in Hin as (parsed & Hq & -> & ->).
    repeat split. cbn [body withSignal bodyConfig].
    intros text [= <-]. exists parsed. auto.
Qed.

(** X12: [_post], [_put], [_patch] and [_delete] apply the query schema
    first and issue at most one network call; a call they issue goes to
    the given address with their own method, the JSON content type as the
    only header, no cache mode and the signal of the controller of this
    call, and its body, when there is one, is the text of the value the
    query schema returned (not of the query as given). *)
Theorem body_wrappers_call_shape fetch url querySchema query responseSchema n :
  wrapperCall (_post fetch url querySchema query responseSchema n)
    POST url querySchema query n /\
  wrapperCall (_put fetch url querySchema query responseSchema n)
    PUT url querySchema query n /\
  wrapperCall (_patch fetch url querySchema query responseSchema n)
    PATCH url querySchema query n /\
  wrapperCall (_delete fetch url querySchema query responseSchema n)
    DELETE url querySchema query n.
Proof.
  rewrite _post_withBody, _put_withBody, _patch_withBody, _delete_withBody.
  split; [|split; [|split]]; apply withBody_wrapperCall.
Qed.

Lemma request_resolvedThrough fetch url config responseSchema n v :
  completion (request fetch url config responseSchema n) = Normal v ->
  resolvedThrough fetch url config responseSchema n v.
Proof.
  destruct (request_path fetch url config responseSchema n);
    try (match goal with
         | |- context [caught ?n ?attempt ?t] =>
             destruct (caught_run n attempt t) as (t' & log & -> & _ & _)
         end; cbn [completion]; discriminate).
  cbn [completion]. intros [= <-].
  exists response, decoded. auto.
Qed.

Lemma withBody_resolved fetch verb url querySchema query responseSchema n v :
  completion (withBody fetch verb url querySchema query responseSchema n) = Normal v ->
  exists parsed,
    querySchema query = Normal parsed /\
    resolvedThrough fetch url (bodyConfig verb parsed) responseSchema n v.
Proof.
  destruct (querySchema query) as [parsed|t] eqn:Hq.
  - rewrite (withBody_accepted _ _ _ _ _ _ _ _ Hq). cbv zeta. cbn [completion].
    intros Hv. exists parsed. split; [reflexivity|].
    apply request_resolvedThrough, Hv.
  - rewrite (withBody_rejected _ _ _ _ _ _ _ _ Hq). discriminate.
Qed.

(** X13: [_post], [_put], [_patch] and [_delete] resolve to a value only
    if the query schema accepted the query and the response schema
    returned that value for the decoded body of a response below 400 to
    the call carrying the parsed query. *)
Theorem body_wrappers_resolve_only_validated fetch url querySchema query responseSchema n v :
  let accepted verb :=
    exists parsed,
      querySchema query = Normal parsed /\
      resolvedThrough fetch url
        {| method := Some verb;
           cache := None;
           headers := [("Content-Type", "application/json")];
           body := Some (JSON_stringify parsed);
           signal := None |} responseSchema n v in
  (completion (_post fetch url querySchema query responseSchema n) = Normal v ->
   accepted POST) /\
  (completion (_put fetch url querySchema query responseSchema n) = Normal v ->
   accepted PUT) /\
  (completion (_patch fetch url querySchema query responseSchema n) = Normal v ->
   accepted PATCH) /\
  (completion (_delete fetch url querySchema query responseSchema n) = Normal v ->
   accepted DELETE).
Proof.
  intros accepted.
  rewrite _post_withBody, _put_withBody, _patch_withBody, _delete_withBody.
  split; [|split; [|split]]; apply withBody_resolved.
Qed.

Lemma body_wrappers_resolve_only_validated_witness :
  exists parsed,
    UserSchema userAnaAdmin = Normal parsed /\
    resolvedThrough
      (stubFetch (Resolves (mkResponse 201 "Created" (Normal userAna))))
      exampleUrl
      {| method := Some POST;
         cache := None;
         headers := [("Content-Type", "application/json")];
         body := Some (JSON_stringify parsed);
         signal := None |} UserSchema 0 userAna.
Proof.
  pose proof (body_wrappers_resolve_only_validated
    (stubFetch (Resolves (mkResponse 201 "Created" (Normal userAna))))
    exampleUrl UserSchema userAnaAdmin UserSchema 0 userAna) as [Hpost _].
  exact (Hpost eq_refl).
Defined.

(** ** The status line *)

Lemma colonFree_numberToString n : colonFree (numberToString n) = true.
Proof.
  unfold numberToString. generalize (N.to_uint n) as d.
  induction d; cbn; auto.
Qed.

Lemma numberToString_inj a b : numberToString a = numberToString b -> a = b.
Proof.
  unfold numberToString. intros H.
  apply (f_equal NilEmpty.uint_of_string) in H.
  rewrite !NilEmpty.usu in H. injection H as H.
  apply (f_equal N.of_uint) in H.
  rewrite !DecimalN.Unsigned.of_to in H. exact H.
Qed.

(** Two texts that agree, each a colon-free prefix followed by a colon and
    a rest, have the same prefix and the same rest. *)
Lemma split_at_colon s1 s2 r1 r2 :
  colonFree s1 = true -> colonFree s2 = true ->
  s1 +:+ String ":" r1 = s2 +:+ String ":" r2 ->
  s1 = s2 /\ r1 = r2.
Proof.
  revert s2. induction s1 as [|c1 s1 IH]; intros [|c2 s2]; cbn; intros H1 H2 Heq.
  - injection Heq as ->. auto.
  - injection Heq as <- _. discriminate H2.
  - injection Heq as -> _. discriminate H1.
  - injection Heq as -> Heq.
    apply andb_true_iff in H1 as [_ H1]. apply andb_true_iff in H2 as [_ H2].
    destruct (IH s2 H1 H2 Heq) as [-> ->]. auto.
Qed.

(** X14: the message of a constructed error determines the response it
    was built from: two responses with the same status line have the same
    status and the same status text. *)
Theorem statusLine_injective (response1 response2 : Response) :
  statusLine response1 = statusLine response2 ->
  status response1 = status response2 /\
  statusText response1 = statusText response2.
Proof.
  unfold statusLine. intros Heq.
  apply split_at_colon in Heq as [Hnum Htext];
    [|apply colonFree_numberToString ..].
  split; [apply numberToString_inj, Hnum|].
  injection Htext as Htext. exact Htext.
Qed.

Lemma statusLine_injective_witness :
  status (mkResponse 404 "Not Found" (Normal JNull)) =
    status (mkResponse 404 "Not Found" (Throw (ThrownError syntaxError))) /\
  statusText (mkResponse 404 "Not Found" (Normal JNull)) =
    statusText (mkResponse 404 "Not Found" (Throw (ThrownError syntaxError))).
Proof.
  apply (statusLine_injective
    (mkResponse 404 "Not Found" (Normal JNull))
    (mkResponse 404 "Not Found" (Throw (ThrownError syntaxError))) eq_refl).
Defined.

(** ** Nothing is swallowed *)

(** X15: whatever the [try] block throws, [request] fails: it re-throws
    the thrown value itself, except when that value is an [Error] whose
    dispatch throws, in which case it throws what the dispatch threw. *)
Theorem thrown_value_is_never_swallowed fetch url config responseSchema n t :
  let b := tryBlock fetch url config responseSchema n (S n) in
  let r := request fetch url config responseSchema n in
  completion b = Throw t ->
  completion r = Throw t \/
  (exists e t',
     t = ThrownError e /\
     completion (handleErrors e (S n)) = Throw t' /\
     completion r = Throw t').
Proof.
  intros b r Hb.
  destruct (tryBlock_shape fetch url config responseSchema n (S n))
    as (rest & _ & _ & Hid).
  assert (Hrun := request_run fetch url config responseSchema n).
  fold b r in Hid, Hrun. cbv zeta in Hrun. rewrite Hb, Hid in Hrun.
  rewrite Hrun. cbn [completion].
  destruct t as [e|v].
  - unfold catchBlock, bind.
    destruct (completion (handleErrors e (S n))) as [[]|t'] eqn:Hh; cbn.
    + left. reflexivity.
    + right. exists e, t'. auto.
  - left. reflexivity.
Qed.

Lemma thrown_value_is_never_swallowed_witness :
  let r := request (stubFetch (Rejects (ThrownOther (JString "offline"))))
             exampleUrl (getConfig "key") UserSchema 0 in
  completion r = Throw (ThrownOther (JString "offline")) \/
  (exists e t',
     ThrownOther (JString "offline") = ThrownError e /\
     completion (handleErrors e 1) = Throw t' /\
     completion r = Throw t').
Proof.
  apply (thrown_value_is_never_swallowed
    (stubFetch (Rejects (ThrownOther (JString "offline"))))
    exampleUrl (getConfig "key") UserSchema 0
    (ThrownOther (JString "offline")) eq_refl).
Defined.
